(** * The SQL question-answering pipeline of AI_XL_Agent

    A shallow embedding of [src/AI_XL_Agent/sql_tables_execution.py]:
    the query executor, the result formatter, the example filter, the
    table-selection step, the five-round tool loop and the wrapper
    [sql_pipeline] with its error handler.

    Conventions of the embedding.
    - A Python exception is a value of [exn]; a call that may raise
      returns a [res].
    - The SQLite file behind [Database.ANALYTICAL_DATA] is a value of the
      abstract type [Store], threaded through every execution.
    - The two language models, the metadata database and the examples
      file are the fields of a [World].
    - pandas is not part of the repository: how the values of a row are
      printed, what stands for a missing value and how a frame is
      serialised are fields of [Platform].
    - A string is the sequence of bytes of its UTF-8 encoding.
    - Costs are Python floats in the code; here they are exact rationals,
      with the same rates and the same conversion factor.
    - Wall-clock timers ([time.time()]), [print] and the progress records
      of [processes_info] are left out. *)

From Stdlib Require Import QArith.
From stdpp Require Import gmap strings list pretty.

Local Open Scope string_scope.
Local Open Scope list_scope.

(** ** Exceptions and fallible results *)

Inductive exn :=
| OperationalError            (* sqlite3: the database cannot be opened or queried *)
| TransportError              (* the request to the language model failed *)
| ValueError                  (* pandas rejects its argument *)
| FileNotFoundError           (* the examples file does not exist *)
| YAMLError                   (* the examples file is not valid YAML *)
| PermissionError             (* the examples file cannot be read *)
| UnboundLocalError (var : string).

Inductive res (A : Type) :=
| Ok (a : A)
| Raise (e : exn).
Arguments Ok {A} a.
Arguments Raise {A} e.

(** Sequencing: the first exception ends the computation. *)
#[export] Instance res_bind : MBind res := λ A B k r,
  match r with
  | Ok a => k a
  | Raise e => Raise e
  end.

(** Running a sequencing step whose first part is known. *)
Ltac step_bind := unfold mbind, res_bind; simpl.
Ltac step_bind_in H := unfold mbind, res_bind in H; simpl in H.

(** ** What the platform (sqlite3, pandas) provides *)

(** What a cursor holds after [cursor.execute]: the fetched rows and
    [cursor.description] ([None] for a statement that yields no rows). *)
Record Cursor (cell : Type) := {
  fetchall : list (list cell);
  description : option (list string);
}.
Arguments fetchall {cell} c.
Arguments description {cell} c.

Class Platform := {
  cell : Type;
  Store : Type;
  (* the texts [str(cell_value)] of the values of one row, as [iterrows]
     yields that row for a frame of the given columns and rows: pandas
     brings the values of a row to one type before they are printed *)
  row_texts : list string → list (list cell) → list cell → list string;
  (* the value pandas puts where a row has no value *)
  missing : cell;
  (* the text [to_json(orient="records")] writes for columns and rows *)
  json_records : list string → list (list cell) → string;
  (* [sqlite3.connect(db_file)] followed by [cursor.execute(sql_query)] and
     [cursor.fetchall()], leaving the [with] block *)
  sqlite_run : Store → string → res (Cursor cell) * Store;
  (* [sqlite3.connect(db_file)] on its own *)
  sqlite_connect : Store → res unit;
}.

(** ** Data frames *)

Section Frames.
Context `{P : Platform}.

(** A frame with the default [RangeIndex]: row [i] has index [i]. *)
Record DataFrame := {
  columns : list string;
  rows : list (list cell);
}.

(** [pd.DataFrame()] *)
Definition empty_frame : DataFrame := {| columns := []; rows := [] |}.

(** [pd.DataFrame(result, columns=columns)]: without rows the frame has the
    columns and no row; otherwise the longest row must have one value per
    column, and a shorter row is completed with missing values. *)
Definition make_frame (result : list (list cell)) (cols : list string)
  : res DataFrame :=
  match result with
  | [] => Ok {| columns := cols; rows := [] |}
  | _ :: _ =>
      let width := max_list (length <$> result) in
      if (width =? length cols)%nat
      then Ok {| columns := cols;
                 rows := (λ r, r ++ replicate (width - length r) missing) <$> result |}
      else Raise ValueError
  end.

(** [data.empty] *)
Definition frame_empty (data : DataFrame) : bool :=
  (length (columns data) =? 0)%nat || (length (rows data) =? 0)%nat.

(** [data.to_json(orient="records")]: pandas refuses repeated column
    names for this orientation. *)
Definition to_json (data : DataFrame) : res string :=
  if decide (NoDup (columns data))
  then Ok (json_records (columns data) (rows data))
  else Raise ValueError.

(** [sep.join(parts)] *)
Definition join (sep : string) (parts : list string) : string :=
  String.concat sep parts.

(** The body of [for index, row in data.iterrows()], for the rows [rs] of
    [data] from [index] on. *)
Fixpoint format_rows (data : DataFrame) (index : nat) (rs : list (list cell))
    (col_separator : string) (add_indices : bool) : list string :=
  match rs with
  | [] => []
  | row :: rs' =>
      ((if add_indices then pretty index +:+ col_separator else EmptyString)
         +:+ join col_separator (row_texts (columns data) (rows data) row))
        :: format_rows data (S index) rs' col_separator add_indices
  end.

Definition format_dataframe (data : DataFrame)
    (row_separator col_separator : string)
    (add_headers add_indices : bool) : string :=
  if (length (columns data) =? 0)%nat then EmptyString
  else
    let formatted_rows :=
      ((if add_headers
        then [(if add_indices then col_separator else EmptyString)
                +:+ join col_separator (columns data)]
        else [])
       ++ format_rows data 0 (rows data) col_separator add_indices)%list in
    join row_separator formatted_rows.

(** ** The query executor *)

(** [execute_sql_query]: everything between [try] and [except Exception]
    either yields the frame or is replaced by [pd.DataFrame()]. *)
Definition execute_sql_query (db : Store) (sql_query : string)
    (query_explanation : string) (stop : bool) : DataFrame * Store :=
  let '(outcome, db') := sqlite_run db sql_query in
  let attempt :=
    cursor ← outcome;
    let result := fetchall cursor in
    let cols := match description cursor with
                | Some names => names
                | None => []
                end in
    make_frame result cols in
  match attempt with
  | Ok result_df => (result_df, db')
  | Raise _ => (empty_frame, db')
  end.

End Frames.

(** ** The example library *)

(** A value of a YAML mapping in the examples file: a scalar or a
    sequence of scalars. *)
Inductive yaml :=
| YStr (s : string)
| YSeq (items : list string).

(** One worked example: a Python [dict] with string keys. *)
Abbreviation Example := (gmap string yaml).

(** A byte that continues a character in UTF-8: its two highest bits are
    1 and 0. *)
Definition continuation (c : Ascii.ascii) : bool :=
  match c with
  | Ascii.Ascii _ _ _ _ _ _ b6 b7 => b7 && negb b6
  end.

(** Iterating a Python [str] yields its characters: a string being the
    bytes of its UTF-8 encoding, a character is a byte with the
    continuation bytes that follow it. *)
Fixpoint chars (s : string) : list string :=
  match s with
  | EmptyString => []
  | String c s' =>
      let rest := chars s' in
      match s', rest with
      | String c' _, g :: gs =>
          if continuation c' then String c g :: gs
          else String c EmptyString :: rest
      | _, _ => String c EmptyString :: rest
      end
  end.

(** [set(example.get("relevant_tables", []))] *)
Definition example_tables (example : Example) : gset string :=
  match example !! "relevant_tables" with
  | Some (YSeq items) => list_to_set items
  | Some (YStr s) => list_to_set (chars s)
  | None => ∅
  end.

(** [{k: v for k, v in example.items() if k != "relevant_tables"}] *)
Definition without_relevant_tables (example : Example) : Example :=
  filter (λ kv, kv.1 ≠ "relevant_tables") example.

(** The [for example in examples] loop, [filtered_examples] being the
    list built so far. *)
Fixpoint filter_examples (examples : list Example)
    (target_tables_set : gset string) (filtered_examples : list Example)
  : list Example :=
  match examples with
  | [] => filtered_examples
  | example :: rest =>
      let example_tables_set := example_tables example in
      if decide (example_tables_set ⊆ target_tables_set)
      then
        let modified_example := without_relevant_tables example in
        filter_examples rest target_tables_set
          (filtered_examples ++ [modified_example])
      else filter_examples rest target_tables_set filtered_examples
  end.

(** [get_relevant_examples]: [loaded] is what opening and parsing the file
    at [sql_examples_path] gives; the two exceptions of the [except]
    clause give the empty list, any other one escapes. *)
Definition get_relevant_examples (loaded : res (list Example))
    (target_relevant_tables : list string) : res (list Example) :=
  match loaded with
  | Raise FileNotFoundError | Raise YAMLError => Ok []
  | Raise e => Raise e
  | Ok examples =>
      let target_tables_set : gset string := list_to_set target_relevant_tables in
      Ok (filter_examples examples target_tables_set [])
  end.

(** ** The metadata database *)

(** A row of the table [market_tables]. *)
Record MarketTable := {
  market : string;
  table_name : string;
  table_schema : string;
  table_description : option string;   (* [None] is SQL NULL *)
}.

(** ** The two language-model requests *)

Record Usage := {
  prompt_tokens : N;
  completion_tokens : N;
}.

(** The answer to the table-selection request, already parsed: the
    response format is a JSON object whose fields are arrays of strings. *)
Record SelectionResponse := {
  content : gmap string (list string);
  selection_usage : Usage;
}.

(** The [arguments] of one tool call.  The only tool offered is
    [execute_sql_query] and [tool_choice] is ["required"], so a tool call
    is a call of that function; [stop] may be left out.  A tool call whose
    arguments are not JSON, lack [sql_query] or [query_explanation], or
    name another function makes the code raise; such calls are not values
    of this type. *)
Record ToolCall := {
  arg_sql_query : string;
  arg_query_explanation : string;
  arg_stop : option bool;
}.

Record GenerationResponse := {
  tool_calls : list ToolCall;
  usage : Usage;
}.

(** A query with the text stored for its result. *)
Record Entry := {
  sql_query : string;
  result : string;
}.

Record TableDetail := {
  td_table_name : string;
  td_table_description : string;
  td_table_schema : string;
}.

(** The messages of [formatted_SQL_prompt], by what is formatted into
    them. *)
Inductive message :=
| System (examples : list Example) (table_details : list TableDetail)
| User (question : string) (keywords : list (gmap string string))
| Assistant (iteration_number : nat) (iteration_results : list Entry).

(** Everything outside the process that a request reads. *)
Record World := {
  (* the rows of [market_tables], [None] when [Database.METADATA] cannot
     be opened *)
  metadata : option (list MarketTable);
  (* opening and parsing [SQL_EXAMPLES] *)
  sql_examples : res (list Example);
  (* the model asked for the relevant tables: question and table info *)
  table_selector : string → gmap string (string * string) → res SelectionResponse;
  (* the model asked for tool calls: the messages so far *)
  sql_generator : list message → res GenerationResponse;
}.

(** ** Table selection *)

(** The [for table_name, table_schema, table_description in rows] loop of
    [get_table_info]. *)
Fixpoint collect_table_info (market_type : string) (rows : list MarketTable)
    (table_info : gmap string (string * string)) : gmap string (string * string) :=
  match rows with
  | [] => table_info
  | row :: rest =>
      if decide (market row = market_type)
      then
        let comment := match table_description row with
                       | Some EmptyString | None => "No comment available."
                       | Some d => d
                       end in
        collect_table_info market_type rest
          (<[table_name row := (table_schema row, comment)]> table_info)
      else collect_table_info market_type rest table_info
  end.

(** [get_table_info]: a [sqlite3.Error] is caught and leaves the empty
    dictionary. *)
Definition get_table_info (W : World) (market_type : string)
  : gmap string (string * string) :=
  match metadata W with
  | Some rows => collect_table_info market_type rows ∅
  | None => ∅
  end.

(** The price in rupees of one table-selection request. *)
Definition selection_cost (token_usage : Usage) : Q :=
  ((inject_Z (Z.of_N (completion_tokens token_usage)) / 1000000) * 15
   + (inject_Z (Z.of_N (prompt_tokens token_usage)) / 1000000) * 5)
  * (8352 # 100).

(** [get_relevant_tables]: the answer is returned as the model gave it. *)
Definition get_relevant_tables (W : World) (user_input market_type : string)
  : res (gmap string (list string) * Usage * Q) :=
  let table_info := get_table_info W market_type in
  response ← table_selector W user_input table_info;
  let answer := content response in
  let token_usage := selection_usage response in
  let cost := selection_cost token_usage in
  Ok (answer, token_usage, cost).

(** The first step of [sql_pipeline]: [rel_tables] as passed on to
    [generate_sql_query_multi_tables], with [rel_tables_check]. *)
Definition select_tables (W : World) (user_input market_type : string)
    (rel_tables : option (list string)) : res (list string * bool) :=
  match rel_tables with
  | None | Some [] =>
      '(answer, token_usage, cost) ← get_relevant_tables W user_input market_type;
      Ok (default [] (answer !! "relevant_tables"), true)
  | Some (t :: ts) => Ok (t :: ts, false)
  end.

(** ** The context handed to every round *)

(** [get_table_schemas]: the connection is opened outside any [try]; per
    table, [fetchone] gives the first matching row.  The formatted text
    the function also returns is dropped by its only caller. *)
Fixpoint collect_schemas (rows : list MarketTable) (table_names : list string)
    (all_schemas : gmap string string) : gmap string string :=
  match table_names with
  | [] => all_schemas
  | name :: rest =>
      match find (λ row, bool_decide (table_name row = name)) rows with
      | Some row => collect_schemas rows rest (<[name := table_schema row]> all_schemas)
      | None => collect_schemas rows rest all_schemas
      end
  end.

Definition get_table_schemas (W : World) (table_names : list string)
  : res (gmap string string) :=
  match metadata W with
  | Some rows => Ok (collect_schemas rows table_names ∅)
  | None => Raise OperationalError
  end.

(** What [SELECT DISTINCT "table_name", "table_description" ... WHERE
    "table_name" IN (...)] fetches: the pair of every row asked for, each
    pair once, at the place of its first row; [seen] holds the pairs
    already met. *)
Fixpoint distinct_comments (rows : list MarketTable) (rel_tables : list string)
    (seen : list (string * option string)) : list (string * option string) :=
  match rows with
  | [] => []
  | row :: rest =>
      let pair := (table_name row, table_description row) in
      if bool_decide (table_name row ∈ rel_tables)
         && negb (bool_decide (pair ∈ seen))
      then pair :: distinct_comments rest rel_tables (pair :: seen)
      else distinct_comments rest rel_tables seen
  end.

(** The dictionary comprehension over the fetched pairs: a later pair
    replaces an earlier one of the same table. *)
Fixpoint collect_comments (pairs : list (string * option string))
    (table_comments : gmap string (option string)) : gmap string (option string) :=
  match pairs with
  | [] => table_comments
  | (name, comment) :: rest =>
      collect_comments rest (<[name := comment]> table_comments)
  end.

(** [get_table_comments_of_rel_tables]: a [sqlite3.Error] is caught. *)
Definition get_table_comments_of_rel_tables (W : World) (rel_tables : list string)
  : gmap string (option string) :=
  match rel_tables with
  | [] => ∅
  | _ =>
      match metadata W with
      | Some rows => collect_comments (distinct_comments rows rel_tables []) ∅
      | None => ∅
      end
  end.

(** One element of [table_details]. *)
Definition table_detail (table_schemas : gmap string string)
    (table_descriptions : gmap string (option string)) (table : string)
  : TableDetail :=
  {| td_table_name := table;
     td_table_description :=
       match table_descriptions !! table with
       | Some (Some d) => d
       | Some None => "None"
       | None => "No description available."
       end;
     td_table_schema := default "No schema available." (table_schemas !! table) |}.

(** ** The tool loop *)

Definition newline : string := String (Ascii.ascii_of_nat 10) EmptyString.
Definition tab : string := String (Ascii.ascii_of_nat 9) EmptyString.

(** The price in rupees of one generation request. *)
Definition generation_cost (token_usage : Usage) : Q :=
  ((inject_Z (Z.of_N (completion_tokens token_usage)) / 1000000) * 10
   + (inject_Z (Z.of_N (prompt_tokens token_usage)) / 1000000) * (5 # 2))
  * (8352 # 100).

Section Session.
Context `{P : Platform}.

(** The local variables of [generate_sql_query_multi_tables] that live
    across rounds, the store, and [history]: a ghost list of the responses
    of the completed rounds, which the code does not keep. *)
Record LoopState := {
  stop : bool;
  formatted_SQL_prompt : list message;
  all_results : list (list Entry);
  all_results_db : list (list Entry);
  cost : option Q;                       (* [None]: not yet assigned *)
  db : Store;
  history : list GenerationResponse;
}.

(** [arguments.get('stop') == True] *)
Definition stop_signal (tool_call : ToolCall) : bool :=
  bool_decide (arg_stop tool_call = Some true).

(** The [for tool_call in tool_calls] loop. *)
Fixpoint run_tool_calls (calls : list ToolCall) (store : Store)
    (iteration_results iteration_results_db : list Entry)
    (iteration_stop_signals : list bool)
  : res (list Entry * list Entry * list bool * Store) :=
  match calls with
  | [] => Ok (iteration_results, iteration_results_db, iteration_stop_signals, store)
  | tool_call :: rest =>
      let '(result, store') :=
        execute_sql_query store (arg_sql_query tool_call)
          (arg_query_explanation tool_call) (default false (arg_stop tool_call)) in
      serializable_result_db ← to_json result;
      let serializable_result :=
        if negb (frame_empty result)
        then format_dataframe result newline tab true false
        else EmptyString in
      run_tool_calls rest store'
        (iteration_results ++
           [{| sql_query := arg_sql_query tool_call; result := serializable_result |}])
        (iteration_results_db ++
           [{| sql_query := arg_sql_query tool_call; result := serializable_result_db |}])
        (iteration_stop_signals ++ [stop_signal tool_call])
  end.

(** [any(iteration_stop_signals)] *)
Definition any (signals : list bool) : bool := existsb id signals.

(** Whether some tool call of a response asks to stop. *)
Definition stop_requested (response : GenerationResponse) : bool :=
  any (stop_signal <$> tool_calls response).

(** One pass through the body of [for count in range(1, 6)], after the
    test of [stop]. *)
Definition iteration (W : World) (count : nat) (st : LoopState) : res LoopState :=
  response ← sql_generator W (formatted_SQL_prompt st);
  '(iteration_results, iteration_results_db, iteration_stop_signals, store') ←
    run_tool_calls (tool_calls response) (db st) [] [] [];
  Ok {| stop := if any iteration_stop_signals then true else stop st;
        formatted_SQL_prompt :=
          formatted_SQL_prompt st ++ [Assistant count iteration_results];
        all_results := all_results st ++ [iteration_results];
        all_results_db := all_results_db st ++ [iteration_results_db];
        cost := Some (generation_cost (usage response));
        db := store';
        history := history st ++ [response] |}.

(** The [for] loop over the remaining values of [count].  It ends with
    the state reached and the exception that ended it, if any. *)
Fixpoint loop (W : World) (counts : list nat) (st : LoopState)
  : LoopState * option exn :=
  match counts with
  | [] => (st, None)
  | count :: rest =>
      if stop st then (st, None)
      else
        match iteration W count st with
        | Ok st' => loop W rest st'
        | Raise e => (st, Some e)
        end
  end.

(** The code before the loop. *)
Definition initial_state (W : World) (store : Store) (user_input : string)
    (keywords : list (gmap string string)) (rel_tables : list string)
  : res LoopState :=
  table_schemas ← get_table_schemas W rel_tables;
  let table_descriptions := get_table_comments_of_rel_tables W rel_tables in
  examples ← get_relevant_examples (sql_examples W) rel_tables;
  let table_details :=
    map (table_detail table_schemas table_descriptions) rel_tables in
  Ok {| stop := false;
        formatted_SQL_prompt :=
          [System examples table_details; User user_input keywords];
        all_results := [];
        all_results_db := [];
        cost := None;
        db := store;
        history := [] |}.

(** [range(1, 6)] *)
Definition rounds : list nat := seq 1 5.

(** The session: the state in which the loop ends, with the exception
    that ended it, if any. *)
Definition session (W : World) (store : Store) (user_input : string)
    (keywords : list (gmap string string)) (rel_tables : list string)
  : res (LoopState * option exn) :=
  st ← initial_state W store user_input keywords rel_tables;
  Ok (loop W rounds st).

(** [generate_sql_query_multi_tables], without the two timers:
    [(all_results_db, all_results, cost)]. *)
Definition generate_sql_query_multi_tables (W : World) (store : Store)
    (user_input : string) (keywords : list (gmap string string))
    (market_type : string) (rel_tables : list string)
  : res (list (list Entry) * list (list Entry) * Q) :=
  '(st, raised) ← session W store user_input keywords rel_tables;
  match raised with
  | Some e => Raise e
  | None =>
      match cost st with
      | Some c => Ok (all_results_db st, all_results st, c)
      | None => Raise (UnboundLocalError "cost")
      end
  end.

(** *** Invariants of the loop *)

(** The entries of a round are those of the tool calls of a response, in
    order. *)
Definition records (response : GenerationResponse) (entries : list Entry) : Prop :=
  sql_query <$> entries = arg_sql_query <$> tool_calls response.

(** What holds of the state between two rounds. *)
Record consistent (W : World) (st : LoopState) : Prop := {
  (* one message per completed round after the two first ones *)
  prompt_length :
    length (formatted_SQL_prompt st) = (2 + length (history st))%nat;
  (* round [k + 1] was the generator's answer to the first [k + 2] messages *)
  asked : ∀ k response, history st !! k = Some response →
    sql_generator W (take (2 + k) (formatted_SQL_prompt st)) = Ok response;
  recorded : Forall2 records (history st) (all_results st);
  recorded_db : Forall2 records (history st) (all_results_db st);
  cost_last : cost st = (generation_cost ∘ usage) <$> last (history st);
  stop_last : stop st = from_option stop_requested false (last (history st));
  quiet_before : ∀ k response, history st !! k = Some response →
    (S k < length (history st))%nat → stop_requested response = false;
}.

(** The round that an exception interrupted, if any. *)
Definition interrupted (raised : option exn) : nat :=
  match raised with
  | Some _ => 1
  | None => 0
  end.

(** The text the loop stores in the display transcript for a frame. *)
Definition display_text (frame : DataFrame) : string :=
  if negb (frame_empty frame)
  then format_dataframe frame newline tab true false
  else EmptyString.

(** Calling [execute_sql_query] for the tool calls of a round, one after
    the other, each on the store the call before left: the frames returned
    and the store left by the last call. *)
Fixpoint executed (calls : list ToolCall) (store : Store)
  : list DataFrame * Store :=
  match calls with
  | [] => ([], store)
  | tool_call :: rest =>
      let '(frame, store') :=
        execute_sql_query store (arg_sql_query tool_call)
          (arg_query_explanation tool_call) (default false (arg_stop tool_call)) in
      let '(frames, store'') := executed rest store' in
      (frame :: frames, store'')
  end.

(** The store left by the tool calls of a list of responses, round after
    round. *)
Fixpoint store_after (responses : list GenerationResponse) (store : Store)
  : Store :=
  match responses with
  | [] => store
  | response :: rest =>
      store_after rest (executed (tool_calls response) store).2
  end.

(** The entry of the display transcript for a tool call and the frame it
    returned. *)
Definition display_entry (tool_call : ToolCall) (frame : DataFrame) : Entry :=
  {| sql_query := arg_sql_query tool_call; result := display_text frame |}.

(** The entries of a round hold what executing the tool calls of the
    response gave, when the round began on [store]. *)
Definition executed_and_recorded (store : Store) (response : GenerationResponse)
    (entries entries_db : list Entry) : Prop :=
  let frames := (executed (tool_calls response) store).1 in
  length frames = length (tool_calls response)
  ∧ entries = zip_with display_entry (tool_calls response) frames
  ∧ sql_query <$> entries_db = arg_sql_query <$> tool_calls response
  ∧ Forall2 (λ frame entry, to_json frame = Ok (result entry)) frames entries_db.

(** What holds of the state between two rounds of a session that began on
    [store]: every completed round is recorded as executed, and the store
    is the one its tool calls left. *)
Record replayed (store : Store) (st : LoopState) : Prop := {
  replayed_length : length (all_results st) = length (history st);
  replayed_length_db : length (all_results_db st) = length (history st);
  replayed_store : db st = store_after (history st) store;
  replayed_rounds : ∀ k response, history st !! k = Some response →
    ∃ entries entries_db,
      all_results st !! k = Some entries
      ∧ all_results_db st !! k = Some entries_db
      ∧ executed_and_recorded (store_after (take k (history st)) store)
          response entries entries_db;
}.

(** Two transcripts with the same rounds, the same number of entries in
    each round and the same query in each entry. *)
Definition aligned (transcript_db transcript : list (list Entry)) : Prop :=
  length transcript_db = length transcript
  ∧ ∀ k round_db round,
      transcript_db !! k = Some round_db → transcript !! k = Some round →
      length round_db = length round
      ∧ ∀ j entry_db entry,
          round_db !! j = Some entry_db → round !! j = Some entry →
          sql_query entry_db = sql_query entry.

(** ** The wrapper *)

(** One record of [sql_errors.txt]. *)
Record ErrorRecord := {
  logged_user_input : string;
  logged_results : list (list Entry);
  logged_error : exn;
}.

(** What [sql_pipeline] returns: the tuple of the [try] block (without
    the three timers) or the pair [(None, 0)] of the handler. *)
Inductive PipelineReturn :=
| Results (all_results_db all_results : list (list Entry)) (rel_tables_check : bool)
| Sentinel.

(** The [try] block: selection, then the loop. *)
Definition try_block (W : World) (store : Store) (user_input : string)
    (keywords : list (gmap string string)) (market_type : string)
    (rel_tables : option (list string))
  : res (list (list Entry) * list (list Entry) * bool) :=
  '(rel_tables', rel_tables_check) ← select_tables W user_input market_type rel_tables;
  '(all_results_db, all_results, cost) ←
    generate_sql_query_multi_tables W store user_input keywords market_type rel_tables';
  Ok (all_results_db, all_results, rel_tables_check).

(** The [except Exception] block.  [all_results] is the local variable of
    [sql_pipeline], [None] while nothing has been assigned to it: building
    [error_message] reads it. *)
Definition except_block (user_input : string)
    (all_results : option (list (list Entry))) (e : exn) (log : list ErrorRecord)
  : res PipelineReturn * list ErrorRecord :=
  match all_results with
  | None => (Raise (UnboundLocalError "all_results"), log)
  | Some results =>
      let error_message :=
        {| logged_user_input := user_input;
           logged_results := results;
           logged_error := e |} in
      (Ok Sentinel, log ++ [error_message])
  end.

(** [sql_pipeline]: what the caller gets (a value or an exception) and the
    diagnostic log afterwards.  The only assignment to the local
    [all_results] is the unpacking of the tuple that
    [generate_sql_query_multi_tables] returns, the last statement before
    [return]; an exception of the [try] block is raised before it.  The
    [finally] block closes the connection and changes neither. *)
Definition sql_pipeline (W : World) (store : Store) (log : list ErrorRecord)
    (user_input : string) (keywords : list (gmap string string))
    (market_type : string) (rel_tables : option (list string))
  : res PipelineReturn * list ErrorRecord :=
  match sqlite_connect store with
  | Raise e => (Raise e, log)
  | Ok _ =>
      let all_results : option (list (list Entry)) := None in
      match try_block W store user_input keywords market_type rel_tables with
      | Ok (all_results_db, all_results', rel_tables_check) =>
          (Ok (Results all_results_db all_results' rel_tables_check), log)
      | Raise e => except_block user_input all_results e log
      end
  end.

End Session.

(** ** Rendering a transcript as text *)

(** An entry as the Python [dict] the loop builds. *)
Definition entry_dict (entry : Entry) : gmap string string :=
  {[ "sql_query" := sql_query entry; "result" := result entry ]}.

(** The inner loop of [format_sql_queries_and_results]: the two texts of
    every entry are appended to [formatted_output]. *)
Fixpoint format_entries (iteration_results : list (gmap string string))
    (formatted_output : list string) : list string :=
  match iteration_results with
  | [] => formatted_output
  | entry :: rest =>
      let sql_query := default "No SQL query available." (entry !! "sql_query") in
      let result := default "No result available." (entry !! "result") in
      format_entries rest
        (formatted_output
           ++ ["SQL Query:" +:+ newline +:+ sql_query +:+ newline;
               "Result:" +:+ newline +:+ result +:+ newline])
  end.

(** The outer loop, over the rounds. *)
Fixpoint format_rounds (all_results : list (list (gmap string string)))
    (formatted_output : list string) : list string :=
  match all_results with
  | [] => formatted_output
  | iteration_results :: rest =>
      format_rounds rest (format_entries iteration_results formatted_output)
  end.

Definition format_sql_queries_and_results
    (all_results : list (list (gmap string string))) : string :=
  join newline (format_rounds all_results []).

(** ** Listing the tables of a database ([sql_schema.py]) *)

(** The loop of [list_tables] that removes repetitions: [seen] and
    [ordered] are its two local variables. *)
Fixpoint dedup_loop (tables : list string) (seen : gset string)
    (ordered : list string) : list string :=
  match tables with
  | [] => ordered
  | t :: rest =>
      if decide (t ∈ seen) then dedup_loop rest seen ordered
      else dedup_loop rest ({[t]} ∪ seen) (ordered ++ [t])
  end.

(** [list_tables]: [table_names] and [view_names] are what the inspector
    answers to [get_table_names] and [get_view_names]; a failure of the
    second is ignored, a failure of the first escapes. *)
Definition list_tables (table_names view_names : res (list string))
    (include_views : bool) : res (list string) :=
  tables ← table_names;
  let tables' :=
    if include_views
    then match view_names with
         | Ok views => tables ++ views
         | Raise _ => tables
         end
    else tables in
  Ok (dedup_loop tables' ∅ []).

(** ** A small installation, used to run the definitions *)

Module Demo.

Definition income_query : string :=
  "SELECT Year, Value FROM IncomeStmt WHERE LineItem='EBITDA'".

(** Cells are text; the store counts the statements it has run and knows
    one query, every other statement is an error. *)
Definition platform : Platform :=
  {| cell := string;
     Store := nat;
     row_texts := λ _ _ row, row;
     missing := "nan";
     json_records := λ cols rows, "[" +:+ join ";" (map (join ",") rows) +:+ "]";
     sqlite_run := λ store q,
       if String.eqb q income_query
       then (Ok {| fetchall := [["2021"; "100"]; ["2022"; "120"]];
                   description := Some ["Year"; "Value"] |}, S store)
       else (Raise OperationalError, S store);
     sqlite_connect := λ _, Ok () |}.

Definition catalog : list MarketTable :=
  [ {| market := "finance"; table_name := "IncomeStmt";
       table_schema := "LineItem TEXT, Year TEXT, Value REAL";
       table_description := Some "Income statement" |};
    {| market := "retail"; table_name := "Orders";
       table_schema := "Id INTEGER, Total REAL";
       table_description := None |} ].

Definition income_example : Example :=
  {[ "question" := YStr "What is EBITDA in 2021?";
     "sql_query" := YStr income_query;
     "relevant_tables" := YSeq ["IncomeStmt"] ]}.

Definition orders_example : Example :=
  {[ "question" := YStr "How many orders?";
     "relevant_tables" := YSeq ["Orders"; "IncomeStmt"] ]}.

Definition general_example : Example :=
  {[ "question" := YStr "What day is it?" ]}.

Definition library : list Example :=
  [income_example; orders_example; general_example].

Definition call (q : string) (flag : option bool) : ToolCall :=
  {| arg_sql_query := q; arg_query_explanation := "why"; arg_stop := flag |}.

Definition reply (calls : list ToolCall) (p c : N) : GenerationResponse :=
  {| tool_calls := calls;
     usage := {| prompt_tokens := p; completion_tokens := c |} |}.

(** A generator that answers round [k] with the [k]-th reply of a script:
    the prompt of round [k] has [k + 1] messages. *)
Definition scripted (script : list GenerationResponse) (prompt : list message)
  : res GenerationResponse :=
  match script !! (length prompt - 2)%nat with
  | Some r => Ok r
  | None => Raise TransportError
  end.

(** A generator that never asks to stop. *)
Definition tireless_reply : GenerationResponse :=
  reply [call income_query (Some false); call "SELECT nothing" None] 1000 50.

Definition tireless (prompt : list message) : res GenerationResponse :=
  Ok tireless_reply.

Definition selecting (names : list string) (question : string)
    (table_info : gmap string (string * string)) : res SelectionResponse :=
  Ok {| content := {[ "relevant_tables" := names ]};
        selection_usage := {| prompt_tokens := 200; completion_tokens := 10 |} |}.

Definition world (names : list string)
    (generator : list message → res GenerationResponse) : World :=
  {| metadata := Some catalog;
     sql_examples := Ok library;
     table_selector := selecting names;
     sql_generator := generator |}.

(** The same with the metadata database out of reach. *)
Definition world_without_metadata (names : list string)
    (generator : list message → res GenerationResponse) : World :=
  {| metadata := None;
     sql_examples := Ok library;
     table_selector := selecting names;
     sql_generator := generator |}.

(** One round, which stops. *)
Definition one_round : list GenerationResponse :=
  [ reply [call income_query (Some true)] 1000 50 ].

(** Two rounds: a long first request, a short second one that stops. *)
Definition first_reply : GenerationResponse :=
  reply [call "SELECT * FROM Missing" (Some false)] 4000 600.

Definition second_reply : GenerationResponse :=
  reply [call income_query (Some false); call income_query (Some true);
         call "SELECT 1" (Some false)] 10 1.

Definition two_rounds : list GenerationResponse := [first_reply; second_reply].

(** A frame of one column and one row. *)
Definition year_frame : @DataFrame platform :=
  @Build_DataFrame platform ["Year"] [["2021"]].


End Demo.

(** * Properties *)

(** ** The example filter *)

Lemma filter_examples_acc (examples : list Example) (target : gset string)
    (acc : list Example) :
  filter_examples examples target acc
  = acc ++ (without_relevant_tables
              <$> filter (λ example, example_tables example ⊆ target) examples).
Proof.
  revert acc. induction examples as [|example rest IH]; intros acc; simpl.
  - by rewrite app_nil_r.
  - rewrite filter_cons. destruct (decide (example_tables example ⊆ target)).
    + rewrite IH, fmap_cons. by rewrite <- app_assoc.
    + apply IH.
Qed.

Lemma without_relevant_tables_lookup (example : Example) (k : string) :
  without_relevant_tables example !! k
  = if decide (k = "relevant_tables") then None else example !! k.
Proof.
  unfold without_relevant_tables. destruct (decide (k = "relevant_tables")) as [->|Hk].
  - apply map_lookup_filter_None_2. right. intros x _. simpl. by intros Hx.
  - destruct (example !! k) as [v|] eqn:Hv.
    + by apply map_lookup_filter_Some_2.
    + apply map_lookup_filter_None_2. by left.
Qed.

(** C7.  When the examples file loads, [get_relevant_examples] returns, in
    the order of the file, exactly the examples whose tables all belong to
    the target tables, an example without tables among them, each with its
    [relevant_tables] field removed and its other fields as they were. *)
Theorem get_relevant_examples_subset_filter
    (examples : list Example) (target_relevant_tables : list string) :
  let kept :=
    filter (λ example,
              example_tables example ⊆ list_to_set target_relevant_tables)
           examples in
  get_relevant_examples (Ok examples) target_relevant_tables
  = Ok (without_relevant_tables <$> kept)
  ∧ (∀ example, example ∈ kept ↔
       example ∈ examples
       ∧ ∀ t, t ∈ example_tables example → t ∈ target_relevant_tables)
  ∧ (∀ example, example ∈ examples → example_tables example = ∅ →
       example ∈ kept)
  ∧ (∀ example k,
       without_relevant_tables example !! k
       = if decide (k = "relevant_tables") then None else example !! k).
Proof.
  intros kept. split; [|split; [|split]].
  - unfold get_relevant_examples. by rewrite filter_examples_acc.
  - intros example. unfold kept. rewrite list_elem_of_filter. split.
    + intros [Hsub Hin]. split; [done|]. intros t Ht.
      apply Hsub in Ht. by apply elem_of_list_to_set in Ht.
    + intros [Hin Hsub]. split; [|done].
      intros t Ht. apply elem_of_list_to_set. by apply Hsub.
  - intros example Hin Hempty. apply list_elem_of_filter. split; [|done].
    rewrite Hempty. apply empty_subseteq.
  - apply without_relevant_tables_lookup.
Qed.

(** The filter run on the library of the small installation. *)
Lemma get_relevant_examples_subset_filter_witness :
  get_relevant_examples (Ok Demo.library) ["IncomeStmt"]
  = Ok [without_relevant_tables Demo.income_example;
        without_relevant_tables Demo.general_example]
  ∧ Demo.general_example
      ∈ filter (λ example, example_tables example ⊆ list_to_set ["IncomeStmt"])
          Demo.library.
Proof.
  pose proof (get_relevant_examples_subset_filter Demo.library ["IncomeStmt"])
    as (Hrun & _ & Hempty & _).
  split.
  - rewrite Hrun. vm_compute. reflexivity.
  - apply Hempty.
    + vm_compute. do 2 right. left.
    + vm_compute. reflexivity.
Defined.

Section Properties.
Context `{P : Platform}.

(** ** The result formatter *)

(** C8.  A frame without columns is formatted as the empty string,
    whatever the separators and the two flags. *)
Theorem format_dataframe_no_columns (data : DataFrame)
    (row_separator col_separator : string) (add_headers add_indices : bool) :
  columns data = [] →
  format_dataframe data row_separator col_separator add_headers add_indices = EmptyString.
Proof.
  intros Hcols. unfold format_dataframe. by rewrite Hcols.
Qed.

(** ** The query executor *)



(** What the tool calls of a round leave behind when they run the same
    queries: the same entries and the same store, or the same exception,
    whatever their explanations and stop flags. *)
Lemma run_tool_calls_same_queries (calls1 : list ToolCall) :
  ∀ (calls2 : list ToolCall) (store : Store) (r rdb : list Entry)
    (sig1 sig2 : list bool),
    arg_sql_query <$> calls1 = arg_sql_query <$> calls2 →
    match run_tool_calls calls1 store r rdb sig1,
          run_tool_calls calls2 store r rdb sig2 with
    | Ok (r1, rdb1, _, store1), Ok (r2, rdb2, _, store2) =>
        r1 = r2 ∧ rdb1 = rdb2 ∧ store1 = store2
    | Raise e1, Raise e2 => e1 = e2
    | _, _ => False
    end.
Proof.
  induction calls1 as [|call1 rest1 IH];
    intros [|call2 rest2] store r rdb sig1 sig2 Hsame; try done.
  injection Hsame as Hq Hrest. simpl. rewrite <- Hq.
  assert (execute_sql_query store (arg_sql_query call1)
            (arg_query_explanation call2) (default false (arg_stop call2))
          = execute_sql_query store (arg_sql_query call1)
              (arg_query_explanation call1) (default false (arg_stop call1)))
    as -> by reflexivity.
  destruct (execute_sql_query _ _ _ _) as [frame store1].
  destruct (to_json frame) as [text|e]; step_bind; [|done].
  by apply IH.
Qed.

(** C9.  On the same store and the same query, [execute_sql_query] gives
    the same frame and leaves the same store, whatever the explanation and
    the stop flag; so two rounds of tool calls with the same queries record
    the same entries in both transcripts. *)
Theorem execute_sql_query_ignores_explanation_and_stop (store1 store2 : Store)
    (sql_query1 sql_query2 : string) (explanation1 explanation2 : string)
    (stop1 stop2 : bool) :
  store1 = store2 → sql_query1 = sql_query2 →
  execute_sql_query store1 sql_query1 explanation1 stop1
  = execute_sql_query store2 sql_query2 explanation2 stop2
  ∧ ∀ calls1 calls2 r rdb sig1 sig2,
      arg_sql_query <$> calls1 = arg_sql_query <$> calls2 →
      match run_tool_calls calls1 store1 r rdb sig1,
            run_tool_calls calls2 store2 r rdb sig2 with
      | Ok (r1, rdb1, _, db1), Ok (r2, rdb2, _, db2) =>
          r1 = r2 ∧ rdb1 = rdb2 ∧ db1 = db2
      | Raise e1, Raise e2 => e1 = e2
      | _, _ => False
      end.
Proof.
  intros <- <-. split.
  - unfold execute_sql_query. by destruct (sqlite_run store1 sql_query1).
  - intros calls1 calls2 r rdb sig1 sig2 Hsame.
    by apply run_tool_calls_same_queries.
Qed.

(** ** The tool loop *)

Lemma run_tool_calls_shape (calls : list ToolCall) :
  ∀ store r rdb sig r' rdb' sig' store',
    run_tool_calls calls store r rdb sig = Ok (r', rdb', sig', store') →
    sql_query <$> r' = (sql_query <$> r) ++ (arg_sql_query <$> calls)
    ∧ sql_query <$> rdb' = (sql_query <$> rdb) ++ (arg_sql_query <$> calls)
    ∧ sig' = sig ++ (stop_signal <$> calls).
Proof.
  induction calls as [|tool_call rest IH]; intros store r rdb sig r' rdb' sig' store'; simpl.
  - intros [= <- <- <- <-]. by rewrite !app_nil_r.
  - destruct (execute_sql_query _ _ _ _) as [frame store1].
    destruct (to_json frame) as [text|e]; step_bind; [|done].
    intros (Hr & Hrdb & Hsig)%IH.
    rewrite Hr, Hrdb, Hsig, !fmap_app. simpl.
    by rewrite <- !app_assoc.
Qed.

(** What a completed round changes. *)
Lemma iteration_ok (W : World) (count : nat) (st st' : LoopState) :
  iteration W count st = Ok st' →
  ∃ response entries entries_db,
    sql_generator W (formatted_SQL_prompt st) = Ok response
    ∧ records response entries ∧ records response entries_db
    ∧ history st' = history st ++ [response]
    ∧ all_results st' = all_results st ++ [entries]
    ∧ all_results_db st' = all_results_db st ++ [entries_db]
    ∧ formatted_SQL_prompt st' = formatted_SQL_prompt st ++ [Assistant count entries]
    ∧ stop st' = (if stop_requested response then true else stop st)
    ∧ cost st' = Some (generation_cost (usage response)).
Proof.
  unfold iteration.
  destruct (sql_generator W _) as [response|e]; step_bind; [|done].
  destruct (run_tool_calls _ _ _ _ _) as [[[[entries entries_db] sig] store']|e] eqn:Hrun;
    step_bind; [|done].
  apply run_tool_calls_shape in Hrun as (Hr & Hrdb & Hsig). simpl in *.
  intros [= <-]. simpl. exists response, entries, entries_db.
  repeat split; try done. unfold stop_requested. by rewrite Hsig.
Qed.

Lemma iteration_consistent (W : World) (count : nat) (st st' : LoopState) :
  consistent W st → stop st = false → iteration W count st = Ok st' →
  consistent W st'.
Proof.
  intros [Hlen Hasked Hrec Hrecdb Hcost Hstop Hquiet] Hgo
    (response & entries & entries_db & Hgen & Hr & Hrdb & Hh & Har & Hardb
       & Hp & Hs & Hc)%iteration_ok.
  split.
  - rewrite Hp, Hh, !length_app. simpl. lia.
  - intros k resp. rewrite Hh, Hp. intros Hk.
    destruct (decide (k < length (history st))%nat) as [Hlt|Hge].
    + rewrite lookup_app_l in Hk by done.
      rewrite take_app_le by lia. by apply Hasked.
    + assert (k = length (history st)) as ->.
      { apply lookup_lt_Some in Hk. rewrite length_app in Hk. simpl in Hk. lia. }
      rewrite list_lookup_middle in Hk by done. injection Hk as <-.
      rewrite <- Hlen, take_app_length. done.
  - rewrite Hh, Har. apply Forall2_app; [done|]. by constructor.
  - rewrite Hh, Hardb. apply Forall2_app; [done|]. by constructor.
  - by rewrite Hc, Hh, last_snoc.
  - rewrite Hs, Hh, last_snoc, Hgo. simpl. by destruct (stop_requested response).
  - intros k resp. rewrite Hh, length_app. simpl. intros Hk Hlt.
    rewrite lookup_app_l in Hk by lia.
    destruct (decide (S k < length (history st))%nat) as [Hin|Hlast].
    + by apply (Hquiet k).
    + assert (last (history st) = Some resp) as Hl.
      { rewrite last_lookup. rewrite <- Hk. f_equal. lia. }
      rewrite Hl in Hstop. simpl in Hstop. congruence.
Qed.

(** The loop keeps the invariant, completes at most one round per value of
    [count], and uses all of them unless it is told to stop or fails. *)
Lemma loop_consistent (W : World) (counts : list nat) :
  ∀ st st' raised,
    consistent W st → loop W counts st = (st', raised) →
    consistent W st'
    ∧ (length (history st') + interrupted raised
       ≤ length (history st) + length counts)%nat
    ∧ (raised = None → stop st' = false →
         length (history st') = (length (history st) + length counts)%nat)
    ∧ (is_Some raised → stop st' = false).
Proof.
  induction counts as [|count rest IH]; intros st st' raised Hst; simpl.
  - intros [= <- <-]. split; [done|]. split; [simpl; lia|].
    split; [intros; lia|]. by intros [? ?].
  - destruct (stop st) eqn:Hstop.
    + intros [= <- <-]. split; [done|]. split; [simpl; lia|].
      split; [congruence|]. by intros [? ?].
    + destruct (iteration W count st) as [st1|e] eqn:Hit.
      * intros Hloop.
        pose proof (iteration_consistent _ _ _ _ Hst Hstop Hit) as Hst1.
        apply iteration_ok in Hit as (response & ? & ? & _ & _ & _ & Hh & _).
        destruct (IH _ _ _ Hst1 Hloop) as (Hc & Hle & Hfull & Hraised).
        rewrite Hh, length_app in Hle, Hfull. simpl in Hle, Hfull.
        split; [done|]. split; [lia|]. split; [|done].
        intros Hn Hs. rewrite (Hfull Hn Hs). lia.
      * intros [= <- <-]. split; [done|]. split; [simpl; lia|].
        split; [done|]. done.
Qed.

Lemma initial_state_consistent (W : World) (store : Store) (user_input : string)
    (keywords : list (gmap string string)) (rel_tables : list string)
    (st : LoopState) :
  initial_state W store user_input keywords rel_tables = Ok st →
  consistent W st ∧ history st = [] ∧ stop st = false.
Proof.
  unfold initial_state.
  destruct (get_table_schemas W rel_tables) as [schemas|e]; step_bind; [|done].
  destruct (get_relevant_examples _ _) as [examples|e]; step_bind; [|done].
  intros [= <-]. simpl. repeat split; try done; simpl; try constructor.
Qed.

(** The state in which a session ends. *)
Lemma session_consistent (W : World) (store : Store) (user_input : string)
    (keywords : list (gmap string string)) (rel_tables : list string)
    (st : LoopState) (raised : option exn) :
  session W store user_input keywords rel_tables = Ok (st, raised) →
  consistent W st
  ∧ (length (history st) + interrupted raised ≤ 5)%nat
  ∧ (raised = None → stop st = false → length (history st) = 5%nat)
  ∧ (is_Some raised → stop st = false).
Proof.
  unfold session.
  destruct (initial_state W store user_input keywords rel_tables) as [st0|e] eqn:Hinit;
    unfold mbind, res_bind; cbv beta iota; [|done].
  apply initial_state_consistent in Hinit as (Hc & Hh & _).
  intros Hret.
  assert (loop W rounds st0 = (st, raised)) as Hloop by congruence.
  apply loop_consistent in Hloop; [|done].
  by rewrite Hh in Hloop.
Qed.

(** *** Rounds are recorded as executed *)

Lemma executed_length (calls : list ToolCall) (store : Store) :
  length (executed calls store).1 = length calls.
Proof.
  revert store. induction calls as [|tool_call rest IH]; intros store; simpl; [done|].
  destruct (execute_sql_query _ _ _ _) as [frame store1].
  specialize (IH store1). destruct (executed rest store1) as [frames store2].
  simpl in *. by rewrite IH.
Qed.

Lemma run_tool_calls_executed (calls : list ToolCall) :
  ∀ store r rdb sig r' rdb' sig' store',
    run_tool_calls calls store r rdb sig = Ok (r', rdb', sig', store') →
    store' = (executed calls store).2
    ∧ r' = r ++ zip_with display_entry calls (executed calls store).1
    ∧ ∃ new_db,
        rdb' = rdb ++ new_db
        ∧ sql_query <$> new_db = arg_sql_query <$> calls
        ∧ Forall2 (λ frame entry, to_json frame = Ok (result entry))
            (executed calls store).1 new_db.
Proof.
  induction calls as [|tool_call rest IH];
    intros store r rdb sig r' rdb' sig' store'; simpl.
  - intros [= <- <- <- <-]. rewrite app_nil_r. split; [done|]. split; [done|].
    exists []. rewrite app_nil_r. split; [done|]. split; [done|]. constructor.
  - destruct (execute_sql_query _ _ _ _) as [frame store1].
    destruct (to_json frame) as [text|e] eqn:Hjson; step_bind; [|done].
    intros (Hstore & Hr & new_db & Hrdb & Hqueries & Hall)%IH.
    destruct (executed rest store1) as [frames store2]. cbn [fst snd] in *.
    split; [done|]. split.
    + rewrite Hr, <- app_assoc. done.
    + exists ({| sql_query := arg_sql_query tool_call; result := text |} :: new_db).
      split; [by rewrite Hrdb, <- app_assoc|]. split.
      * rewrite !fmap_cons. by f_equal.
      * by constructor.
Qed.

Lemma iteration_executed (W : World) (count : nat) (st st' : LoopState) :
  iteration W count st = Ok st' →
  ∃ response entries entries_db,
    history st' = history st ++ [response]
    ∧ all_results st' = all_results st ++ [entries]
    ∧ all_results_db st' = all_results_db st ++ [entries_db]
    ∧ db st' = (executed (tool_calls response) (db st)).2
    ∧ executed_and_recorded (db st) response entries entries_db.
Proof.
  unfold iteration.
  destruct (sql_generator W _) as [response|e]; step_bind; [|done].
  destruct (run_tool_calls _ _ _ _ _) as [[[[entries entries_db] sig] store']|e] eqn:Hrun;
    step_bind; [|done].
  apply run_tool_calls_executed in Hrun as (Hstore & Hr & new_db & Hrdb & Hq & Hall).
  simpl in *. intros [= <-]. simpl. exists response, entries, entries_db.
  subst entries entries_db. do 4 (split; [done|]).
  split; [apply executed_length|]. by repeat split.
Qed.

Lemma store_after_snoc (responses : list GenerationResponse)
    (response : GenerationResponse) (store : Store) :
  store_after (responses ++ [response]) store
  = (executed (tool_calls response) (store_after responses store)).2.
Proof.
  revert store. induction responses as [|r rest IH]; intros store; simpl; [done|].
  apply IH.
Qed.

Lemma iteration_replayed (W : World) (store : Store) (count : nat)
    (st st' : LoopState) :
  replayed store st → iteration W count st = Ok st' → replayed store st'.
Proof.
  intros [Hlen Hlendb Hstore Hrounds]
    (response & entries & entries_db & Hh & Har & Hardb & Hdb & Hexec)%iteration_executed.
  split.
  - rewrite Har, Hh, !length_app, Hlen. done.
  - rewrite Hardb, Hh, !length_app, Hlendb. done.
  - by rewrite Hdb, Hh, store_after_snoc, Hstore.
  - intros k resp. rewrite Hh, Har, Hardb. intros Hk.
    destruct (decide (k < length (history st))%nat) as [Hlt|Hge].
    + rewrite lookup_app_l in Hk by done.
      rewrite take_app_le by lia.
      rewrite !lookup_app_l by lia. by apply Hrounds.
    + assert (k = length (history st)) as ->.
      { apply lookup_lt_Some in Hk. rewrite length_app in Hk. simpl in Hk. lia. }
      rewrite list_lookup_middle in Hk by done. injection Hk as <-.
      rewrite take_app_length, <- Hstore.
      exists entries, entries_db.
      split; [by apply list_lookup_middle|].
      split; [by apply list_lookup_middle|done].
Qed.

Lemma loop_replayed (W : World) (store : Store) (counts : list nat) :
  ∀ st st' raised,
    replayed store st → loop W counts st = (st', raised) → replayed store st'.
Proof.
  induction counts as [|count rest IH]; intros st st' raised Hst; simpl.
  - by intros [= <- <-].
  - destruct (stop st); [by intros [= <- <-]|].
    destruct (iteration W count st) as [st1|e] eqn:Hit; [|by intros [= <- <-]].
    apply IH. by apply (iteration_replayed W store count st).
Qed.

Lemma session_replayed (W : World) (store : Store) (user_input : string)
    (keywords : list (gmap string string)) (rel_tables : list string)
    (st : LoopState) (raised : option exn) :
  session W store user_input keywords rel_tables = Ok (st, raised) →
  replayed store st.
Proof.
  unfold session.
  destruct (initial_state W store user_input keywords rel_tables) as [st0|e] eqn:Hinit;
    unfold mbind, res_bind; cbv beta iota; [|done].
  intros Hret.
  assert (loop W rounds st0 = (st, raised)) as Hloop by congruence.
  apply (loop_replayed W store rounds st0 st raised); [|done].
  unfold initial_state in Hinit.
  destruct (get_table_schemas W rel_tables) as [schemas|e]; step_bind_in Hinit; [|done].
  destruct (get_relevant_examples _ _) as [examples|e]; step_bind_in Hinit; [|done].
  injection Hinit as <-. split; simpl; try done.
Qed.

Lemma last_elem_of {A : Type} (l : list A) (x : A) : last l = Some x → x ∈ l.
Proof.
  rewrite last_lookup. intros Hx. apply list_elem_of_lookup. eauto.
Qed.

Lemma last_is_lookup {A : Type} (l : list A) (k : nat) (x : A) :
  l !! k = Some x → S k = length l → last l = Some x.
Proof.
  intros Hx Hk. rewrite last_lookup, <- Hx. f_equal. lia.
Qed.

(** C4.  A session always ends: either it fails before the first round,
    or the loop ends in a state with at most five rounds, the round an
    exception may have interrupted included; both transcripts have one
    element per completed round.  When no completed round asks to stop and
    no exception ends the loop, it ends after exactly five rounds. *)
Theorem loop_runs_at_most_five_rounds (W : World) (store : Store)
    (user_input : string) (keywords : list (gmap string string))
    (rel_tables : list string) :
  match session W store user_input keywords rel_tables with
  | Raise e => initial_state W store user_input keywords rel_tables = Raise e
  | Ok (st, raised) =>
      (length (history st) + interrupted raised ≤ 5)%nat
      ∧ length (all_results st) = length (history st)
      ∧ length (all_results_db st) = length (history st)
      ∧ ((∀ response, response ∈ history st → stop_requested response = false) →
           raised = None → length (history st) = 5%nat)
  end.
Proof.
  destruct (session W store user_input keywords rel_tables) as [[st raised]|e] eqn:Hs.
  - apply session_consistent in Hs as (Hc & Hle & Hfull & _).
    split; [done|]. split; [|split].
    + symmetry. apply (Forall2_length _ _ _ (recorded _ _ Hc)).
    + symmetry. apply (Forall2_length _ _ _ (recorded_db _ _ Hc)).
    + intros Hquiet Hnone. apply Hfull; [done|].
      rewrite (stop_last _ _ Hc).
      destruct (last (history st)) as [response|] eqn:Hlast; [|done].
      simpl. apply Hquiet. by apply last_elem_of.
  - unfold session in Hs.
    destruct (initial_state W store user_input keywords rel_tables); [done|].
    unfold mbind, res_bind in Hs. congruence.
Qed.

(** C5, as amended.  In a session that began on [store] and ended in
    state [st], take a completed round, round [k + 1], and the response it
    executed.  Every tool call of the response has been executed, in
    order, each on the store left by the call before, the first on the
    store left by the rounds before; the display transcript holds, for
    each, the query and the text of the frame it returned, the other
    transcript the query and the JSON text of that frame.  The loop ends
    after this round without an exception exactly when some tool call of
    the round asks to stop or the round is the fifth; after a round that
    is not the fifth and in which no tool call asks to stop, a further
    round is started. *)
Theorem round_ends_session_iff_stop_or_fifth (W : World) (store : Store)
    (user_input : string) (keywords : list (gmap string string))
    (rel_tables : list string) (st : LoopState) (raised : option exn)
    (k : nat) (response : GenerationResponse) :
  session W store user_input keywords rel_tables = Ok (st, raised) →
  history st !! k = Some response →
  (∃ entries entries_db,
      all_results st !! k = Some entries
      ∧ all_results_db st !! k = Some entries_db
      ∧ sql_query <$> entries = arg_sql_query <$> tool_calls response
      ∧ sql_query <$> entries_db = arg_sql_query <$> tool_calls response
      ∧ executed_and_recorded (store_after (take k (history st)) store)
          response entries entries_db)
  ∧ ((S k = length (history st) ∧ raised = None)
     ↔ (stop_requested response = true ∨ S k = 5%nat))
  ∧ (stop_requested response = false → (S k < 5)%nat →
       (S k < length (history st))%nat ∨ is_Some raised).
Proof.
  intros Hsession Hk.
  pose proof (session_replayed _ _ _ _ _ _ _ Hsession) as Hreplayed.
  apply session_consistent in Hsession as (Hc & Hle & Hfull & Hraised).
  pose proof (lookup_lt_Some _ _ _ Hk) as Hlt.
  assert ((S k = length (history st) ∧ raised = None)
          ↔ (stop_requested response = true ∨ S k = 5%nat)) as Hiff.
  { split.
    - intros [Hlast Hnone].
      destruct (stop_requested response) eqn:Hflag; [by left|right].
      rewrite Hlast. apply Hfull; [done|].
      rewrite (stop_last _ _ Hc), (last_is_lookup _ _ _ Hk Hlast). done.
    - intros [Hflag|Hfifth].
      + assert (S k = length (history st)) as Hlast.
        { destruct (decide (S k < length (history st))%nat) as [Hin|?]; [|lia].
          rewrite (quiet_before _ _ Hc _ _ Hk Hin) in Hflag. done. }
        split; [done|].
        destruct raised as [e|]; [|done].
        assert (stop st = false) as Hs by (apply Hraised; eauto).
        rewrite (stop_last _ _ Hc), (last_is_lookup _ _ _ Hk Hlast) in Hs.
        simpl in Hs. congruence.
      + destruct raised; simpl in Hle; [lia|]. split; [lia|done]. }
  split; [|split; [done|]].
  - destruct (Forall2_lookup_l _ _ _ _ _ (recorded _ _ Hc) Hk) as (entries & He & Hr).
    destruct (Forall2_lookup_l _ _ _ _ _ (recorded_db _ _ Hc) Hk) as (entries_db & Hedb & Hrdb).
    destruct (replayed_rounds _ _ Hreplayed _ _ Hk)
      as (entries' & entries_db' & He' & Hedb' & Hexec).
    assert (entries' = entries) as -> by congruence.
    assert (entries_db' = entries_db) as -> by congruence.
    by exists entries, entries_db.
  - intros Hflag Hbefore.
    destruct (decide (S k < length (history st))%nat) as [?|Hlast]; [by left|right].
    destruct raised as [e|]; [by eexists|].
    assert (S k = length (history st) ∧ @None exn = None) as Hend by (split; [lia|done]).
    apply Hiff in Hend as [?|?]; [congruence|lia].
Qed.

Lemma records_aligned (responses : list GenerationResponse)
    (transcript_db transcript : list (list Entry)) :
  Forall2 records responses transcript_db →
  Forall2 records responses transcript →
  aligned transcript_db transcript.
Proof.
  intros Hdb Hr. split.
  - by rewrite <- (Forall2_length _ _ _ Hdb), <- (Forall2_length _ _ _ Hr).
  - intros k round_db round Hkdb Hk.
    destruct (Forall2_lookup_r _ _ _ _ _ Hdb Hkdb) as (response & Hresp & Hrec_db).
    destruct (Forall2_lookup_l _ _ _ _ _ Hr Hresp) as (round' & Hk' & Hrec).
    assert (round' = round) as -> by congruence.
    unfold records in *.
    assert (sql_query <$> round_db = sql_query <$> round) as Hsame by congruence.
    split.
    + by rewrite <- (length_fmap sql_query round_db), Hsame, length_fmap.
    + intros j entry_db entry Hjdb Hj.
      assert ((sql_query <$> round_db) !! j = (sql_query <$> round) !! j) as Hq
        by by rewrite Hsame.
      rewrite !list_lookup_fmap, Hjdb, Hj in Hq. simpl in Hq. congruence.
Qed.

(** What [generate_sql_query_multi_tables] returns, by the end of the
    session. *)
Lemma generate_returns (W : World) (store : Store) (user_input : string)
    (keywords : list (gmap string string)) (market_type : string)
    (rel_tables : list string) (transcript_db transcript : list (list Entry))
    (c : Q) :
  generate_sql_query_multi_tables W store user_input keywords market_type rel_tables
  = Ok (transcript_db, transcript, c) →
  ∃ st, session W store user_input keywords rel_tables = Ok (st, None)
        ∧ transcript_db = all_results_db st ∧ transcript = all_results st
        ∧ cost st = Some c.
Proof.
  unfold generate_sql_query_multi_tables.
  destruct (session W store user_input keywords rel_tables) as [[st raised]|e];
    unfold mbind, res_bind; cbv beta iota; [|done].
  destruct raised as [e|]; [done|].
  destruct (cost st) as [c'|] eqn:Hcost; [|done].
  intros Hret. exists st. repeat split; congruence.
Qed.

(** C10.  At the end of every session, and in what
    [generate_sql_query_multi_tables] returns, the two transcripts have
    the same number of rounds, each round has the same number of entries
    in both, and corresponding entries hold the same query. *)
Theorem transcripts_are_aligned (W : World) (store : Store)
    (user_input : string) (keywords : list (gmap string string))
    (market_type : string) (rel_tables : list string) :
  (∀ st raised,
      session W store user_input keywords rel_tables = Ok (st, raised) →
      aligned (all_results_db st) (all_results st))
  ∧ (∀ transcript_db transcript c,
      generate_sql_query_multi_tables W store user_input keywords market_type
        rel_tables = Ok (transcript_db, transcript, c) →
      aligned transcript_db transcript).
Proof.
  assert (∀ st raised,
      session W store user_input keywords rel_tables = Ok (st, raised) →
      aligned (all_results_db st) (all_results st)) as Hsession.
  { intros st raised (Hc & _)%session_consistent.
    apply (records_aligned (history st)); [apply (recorded_db _ _ Hc)|apply (recorded _ _ Hc)]. }
  split; [done|].
  intros transcript_db transcript c (st & Hs & -> & -> & _)%generate_returns.
  by apply (Hsession st None).
Qed.

(** The cost returned is that of the last round alone. *)
Lemma returned_cost_is_last_round (W : World) (store : Store)
    (user_input : string) (keywords : list (gmap string string))
    (market_type : string) (rel_tables : list string)
    (transcript_db transcript : list (list Entry)) (c : Q) :
  generate_sql_query_multi_tables W store user_input keywords market_type rel_tables
  = Ok (transcript_db, transcript, c) →
  ∃ st response,
    session W store user_input keywords rel_tables = Ok (st, None)
    ∧ last (history st) = Some response
    ∧ c = generation_cost (usage response).
Proof.
  intros (st & Hs & _ & _ & Hcost)%generate_returns.
  pose proof Hs as (Hc & _)%session_consistent.
  rewrite (cost_last _ _ Hc) in Hcost.
  destruct (last (history st)) as [response|] eqn:Hlast; [|done].
  exists st, response. simpl in Hcost. injection Hcost as <-.
  by repeat split.
Qed.

(** ** Execution errors *)



(** ** Table selection *)

Lemma collect_table_info_dom (market_type : string) (rows : list MarketTable) :
  ∀ (table_info : gmap string (string * string)) (t : string),
    t ∈ dom (collect_table_info market_type rows table_info)
    ↔ t ∈ dom table_info
      ∨ ∃ row, row ∈ rows ∧ market row = market_type ∧ table_name row = t.
Proof.
  induction rows as [|row rest IH]; intros table_info t; simpl.
  - split; [by left|]. intros [?|(row & Hrow & _)]; [done|]. by apply elem_of_nil in Hrow.
  - destruct (decide (market row = market_type)) as [Hm|Hm]; rewrite IH.
    + rewrite dom_insert_L, elem_of_union, elem_of_singleton. split.
      * intros [[->|?]|(row' & Hin & ? & ?)].
        -- right. exists row. split; [apply list_elem_of_here|done].
        -- by left.
        -- right. exists row'. split; [by apply list_elem_of_further|done].
      * intros [?|(row' & Hin & Hm' & Ht)]; [left; by right|].
        apply elem_of_cons in Hin as [->|Hin]; [left; left; done|].
        right. by exists row'.
    + split.
      * intros [?|(row' & Hin & ? & ?)]; [by left|].
        right. exists row'. split; [by apply list_elem_of_further|done].
      * intros [?|(row' & Hin & Hm' & Ht)]; [by left|].
        apply elem_of_cons in Hin as [->|Hin]; [done|].
        right. by exists row'.
Qed.

(** The catalog of a market: the names of its rows in [market_tables]. *)
Lemma get_table_info_dom (W : World) (market_type t : string) :
  t ∈ dom (get_table_info W market_type)
  ↔ ∃ rows row, metadata W = Some rows ∧ row ∈ rows
                ∧ market row = market_type ∧ table_name row = t.
Proof.
  unfold get_table_info. destruct (metadata W) as [rows|].
  - rewrite collect_table_info_dom, dom_empty_L. split.
    + intros [?|(row & ? & ? & ?)]; [set_solver|]. by exists rows, row.
    + intros (rows' & row & [= <-] & ? & ? & ?). right. by exists row.
  - rewrite dom_empty_L. split; [set_solver|]. by intros (? & ? & ? & _).
Qed.

Lemma collect_schemas_lookup (rows : list MarketTable) (table_names : list string) :
  ∀ (all_schemas : gmap string string) (t : string),
    collect_schemas rows table_names all_schemas !! t
    = if decide (t ∈ table_names)
      then match find (λ row, bool_decide (table_name row = t)) rows with
           | Some row => Some (table_schema row)
           | None => all_schemas !! t
           end
      else all_schemas !! t.
Proof.
  induction table_names as [|name rest IH]; intros all_schemas t.
  - simpl. destruct (decide (t ∈ [])) as [Hin|]; [|done]. by apply elem_of_nil in Hin.
  - cbn [collect_schemas].
    destruct (decide (t ∈ name :: rest)) as [Hin|Hnin].
    + destruct (decide (name = t)) as [->|Hne].
      * destruct (find _ rows) as [row|] eqn:Hfind; rewrite IH, ?Hfind.
        -- destruct (decide (t ∈ rest)); [done|]. apply lookup_insert_eq.
        -- by destruct (decide (t ∈ rest)).
      * apply elem_of_cons in Hin as [->|Hin]; [done|].
        destruct (find (λ row, bool_decide (table_name row = name)) rows) as [row|];
          rewrite IH; (destruct (decide (t ∈ rest)); [|done]);
          rewrite ?lookup_insert_ne by done; done.
    + apply not_elem_of_cons in Hnin as [Hne Hnin].
      destruct (find (λ row, bool_decide (table_name row = name)) rows) as [row|];
        rewrite IH; (destruct (decide (t ∈ rest)); [done|]);
        rewrite ?lookup_insert_ne by done; done.
Qed.

Lemma distinct_comments_elem (rows : list MarketTable) (rel_tables : list string) :
  ∀ (seen : list (string * option string)) (pair : string * option string),
    pair ∈ distinct_comments rows rel_tables seen
    ↔ (pair ∉ seen) ∧ fst pair ∈ rel_tables
      ∧ ∃ row, row ∈ rows ∧ (table_name row, table_description row) = pair.
Proof.
  induction rows as [|row rest IH]; intros seen pair; simpl.
  - split; [by intros ?%elem_of_nil|].
    intros (_ & _ & row & Hrow & _). by apply elem_of_nil in Hrow.
  - destruct (bool_decide (table_name row ∈ rel_tables)) eqn:Hrel;
      [destruct (bool_decide ((table_name row, table_description row) ∈ seen)) eqn:Hseen|];
      simpl.
    + apply bool_decide_eq_true in Hrel, Hseen. rewrite IH. split.
      * intros (Hnew & Hin & row' & Hrow' & Hpair). split; [done|]. split; [done|].
        exists row'. split; [by apply list_elem_of_further|done].
      * intros (Hnew & Hin & row' & Hrow' & Hpair). split; [done|]. split; [done|].
        apply elem_of_cons in Hrow' as [->|Hrow']; [by rewrite Hpair in Hseen|].
        by exists row'.
    + apply bool_decide_eq_true in Hrel. apply bool_decide_eq_false in Hseen.
      rewrite elem_of_cons, IH. split.
      * intros [->|(Hnew & Hin & row' & Hrow' & Hpair)].
        -- split; [done|]. split; [done|]. exists row.
           split; [apply list_elem_of_here|done].
        -- apply not_elem_of_cons in Hnew as [_ Hnew].
           split; [done|]. split; [done|]. exists row'.
           split; [by apply list_elem_of_further|done].
      * intros (Hnew & Hin & row' & Hrow' & Hpair).
        destruct (decide (pair = (table_name row, table_description row)))
          as [Heq|Hne]; [by left|right].
        split; [by apply not_elem_of_cons|]. split; [done|].
        apply elem_of_cons in Hrow' as [->|Hrow']; [by rewrite Hpair in Hne|].
        by exists row'.
    + apply bool_decide_eq_false in Hrel. rewrite IH. split.
      * intros (Hnew & Hin & row' & Hrow' & Hpair). split; [done|]. split; [done|].
        exists row'. split; [by apply list_elem_of_further|done].
      * intros (Hnew & Hin & row' & Hrow' & Hpair). split; [done|]. split; [done|].
        apply elem_of_cons in Hrow' as [->|Hrow']; [|by exists row'].
        exfalso. apply Hrel. by rewrite <- Hpair in Hin.
Qed.

Lemma collect_comments_dom (pairs : list (string * option string)) :
  ∀ (table_comments : gmap string (option string)) (t : string),
    t ∈ dom (collect_comments pairs table_comments)
    ↔ t ∈ dom table_comments ∨ ∃ comment, (t, comment) ∈ pairs.
Proof.
  induction pairs as [|[name comment] rest IH]; intros table_comments t; simpl.
  - split; [by left|]. intros [?|(comment & Hin)]; [done|].
    by apply elem_of_nil in Hin.
  - rewrite IH, dom_insert_L, elem_of_union, elem_of_singleton. split.
    + intros [[->|?]|(comment' & Hin)].
      * right. exists comment. apply list_elem_of_here.
      * by left.
      * right. exists comment'. by apply list_elem_of_further.
    + intros [?|(comment' & Hin)]; [left; by right|].
      apply elem_of_cons in Hin as [[= -> ->]|Hin]; [left; by left|].
      right. by exists comment'.
Qed.

Lemma comments_dom (rows : list MarketTable) (rel_tables : list string) (t : string) :
  t ∈ dom (collect_comments (distinct_comments rows rel_tables []) ∅)
  ↔ t ∈ rel_tables ∧ ∃ row, row ∈ rows ∧ table_name row = t.
Proof.
  rewrite collect_comments_dom, dom_empty_L. split.
  - intros [Hempty|(comment & Hin)]; [by apply not_elem_of_empty in Hempty|].
    apply distinct_comments_elem in Hin as (_ & Hrel & row & Hrow & [= Hname _]).
    split; [done|]. by exists row.
  - intros (Hrel & row & Hrow & Hname). right. exists (table_description row).
    apply distinct_comments_elem. split; [apply not_elem_of_nil|].
    split; [done|]. exists row. by rewrite Hname.
Qed.

Lemma table_details_names (table_schemas : gmap string string)
    (table_descriptions : gmap string (option string)) (tables : list string) :
  td_table_name <$> map (table_detail table_schemas table_descriptions) tables
  = tables.
Proof.
  induction tables as [|t ts IH]; [done|]. simpl. f_equal. apply IH.
Qed.


(** ** The wrapper *)

(** An exception of the [try] block never reaches the end of the handler:
    the handler raises when it reads [all_results]. *)
Lemma sql_pipeline_handler_raises (W : World) (store : Store)
    (log : list ErrorRecord) (user_input : string)
    (keywords : list (gmap string string)) (market_type : string)
    (rel_tables : option (list string)) (e : exn) :
  sqlite_connect store = Ok () →
  try_block W store user_input keywords market_type rel_tables = Raise e →
  sql_pipeline W store log user_input keywords market_type rel_tables
  = (Raise (UnboundLocalError "all_results"), log).
Proof.
  intros Hconnect Htry. unfold sql_pipeline. by rewrite Hconnect, Htry.
Qed.

(** No call of [sql_pipeline] returns the pair [(None, 0)] or writes to
    the log. *)
Lemma sql_pipeline_never_logs (W : World) (store : Store)
    (log : list ErrorRecord) (user_input : string)
    (keywords : list (gmap string string)) (market_type : string)
    (rel_tables : option (list string)) :
  (sql_pipeline W store log user_input keywords market_type rel_tables).1 ≠ Ok Sentinel
  ∧ (sql_pipeline W store log user_input keywords market_type rel_tables).2 = log.
Proof.
  unfold sql_pipeline. destruct (sqlite_connect store); [|done].
  destruct (try_block _ _ _ _ _ _) as [[[? ?] ?]|e]; done.
Qed.

End Properties.

(** * Runs on the small installation *)

Module Runs.
Import Demo.
#[local] Existing Instance platform.

(** A frame with two rows and no column is formatted as the empty
    string. *)
Lemma format_dataframe_no_columns_witness :
  columns (P := platform) {| columns := []; rows := [[]; []] |} = []
  ∧ format_dataframe (P := platform) {| columns := []; rows := [[]; []] |}
      ";" "," true true = EmptyString.
Proof.
  split; [reflexivity|].
  apply (format_dataframe_no_columns (P := platform)). reflexivity.
Defined.

(** The known query, asked with two explanations and both stop flags. *)
Lemma execute_sql_query_ignores_explanation_and_stop_witness :
  execute_sql_query (P := platform) 3%nat income_query "first" true
  = execute_sql_query (P := platform) 3%nat income_query "second" false.
Proof.
  apply (execute_sql_query_ignores_explanation_and_stop (P := platform)
           3%nat 3%nat income_query income_query "first" "second" true false);
    reflexivity.
Defined.



(** C2, the code at a session of two rounds.  The first request uses 4000
    prompt and 600 completion tokens, the second 10 and 1, and the second
    round stops.  The cost returned is the cost of the second request
    alone: it is less than the cost of the first round, and it is not the
    sum of the two. *)
Theorem returned_cost_is_not_the_total :
  match
    generate_sql_query_multi_tables (P := platform)
      (world ["IncomeStmt"] (scripted two_rounds)) 0%nat "q" [] "finance"
      ["IncomeStmt"]
  with
  | Ok (_, transcript, c) =>
      length transcript = 2%nat
      ∧ (c == generation_cost (usage second_reply))%Q
      ∧ (c < generation_cost (usage first_reply))%Q
      ∧ ¬ (c == generation_cost (usage first_reply)
                + generation_cost (usage second_reply))%Q
  | Raise _ => False
  end.
Proof.
  vm_compute. split; [reflexivity|]. split; [reflexivity|].
  split; [reflexivity|]. discriminate.
Qed.

(** C3, the code when the metadata database is out of reach.  The [try]
    block raises [OperationalError] before any round; the handler raises
    [UnboundLocalError] in its turn, which reaches the caller; nothing is
    added to the log and no pair [(None, 0)] is returned. *)
Theorem hard_failure_escapes_the_wrapper :
  try_block (P := platform)
    (world_without_metadata ["IncomeStmt"] (scripted one_round)) 0%nat
    "What is EBITDA in 2021 and 2022?" [] "finance" None
  = Raise OperationalError
  ∧ sql_pipeline (P := platform)
      (world_without_metadata ["IncomeStmt"] (scripted one_round)) 0%nat []
      "What is EBITDA in 2021 and 2022?" [] "finance" None
    = (Raise (UnboundLocalError "all_results"), []).
Proof.
  split; vm_compute; reflexivity.
Qed.

(** With the metadata database in reach, the same question is answered in
    one round. *)
Example pipeline_answers_in_one_round :
  sql_pipeline (P := platform) (world ["IncomeStmt"] (scripted one_round)) 0%nat []
    "What is EBITDA in 2021 and 2022?" [] "finance" None
  = (Ok (Results
           [[{| sql_query := income_query; result := "[2021,100;2022,120]" |}]]
           [[{| sql_query := income_query;
                result := "Year" +:+ tab +:+ "Value" +:+ newline
                          +:+ "2021" +:+ tab +:+ "100" +:+ newline
                          +:+ "2022" +:+ tab +:+ "120" |}]]
           true), []).
Proof. vm_compute. reflexivity. Qed.

(** A generator that never asks to stop is asked five times. *)
Lemma loop_runs_at_most_five_rounds_witness :
  ∃ st,
    session (P := platform) (world ["IncomeStmt"] tireless) 0%nat "q" []
      ["IncomeStmt"] = Ok (st, None)
    ∧ (∀ response, response ∈ history st → stop_requested response = false)
    ∧ length (history st) = 5%nat.
Proof.
  pose proof (loop_runs_at_most_five_rounds (P := platform)
                (world ["IncomeStmt"] tireless) 0%nat "q" [] ["IncomeStmt"]) as Hbound.
  destruct (session (P := platform) (world ["IncomeStmt"] tireless) 0%nat "q" []
              ["IncomeStmt"]) as [[st raised]|e] eqn:Hs; vm_compute in Hs; [|discriminate].
  injection Hs as Hst Hraised. subst raised.
  destruct Hbound as (_ & _ & _ & Hfive).
  assert (∀ response, response ∈ history st → stop_requested response = false)
    as Hquiet.
  { subst st. intros response Hin. simpl in Hin.
    repeat (apply elem_of_cons in Hin as [->|Hin]; [reflexivity|]).
    by apply elem_of_nil in Hin. }
  exists st. split; [reflexivity|]. split; [exact Hquiet|].
  apply Hfive; [exact Hquiet|reflexivity].
Defined.

(** C5, the claim as stated fails.  With a generator that never asks to
    stop, the session ends after its fifth round, without an exception,
    although no tool call of that round has [stop] set. *)
Lemma fifth_round_ends_session_without_stop :
  match
    session (P := platform) (world ["IncomeStmt"] tireless) 0%nat "q" []
      ["IncomeStmt"]
  with
  | Ok (st, raised) =>
      history st !! 4%nat = Some tireless_reply
      ∧ ¬ ((5%nat = length (history st) ∧ raised = None)
           ↔ stop_requested tireless_reply = true)
  | Raise _ => False
  end.
Proof.
  vm_compute. split; [reflexivity|].
  intros [Hend _]. specialize (Hend (conj eq_refl eq_refl)). discriminate Hend.
Qed.

(** A round with the stop flags false, true, false is the last one, and
    its three tool calls are executed and recorded: the store, which had
    run one statement before the round, has run four after it. *)
Lemma round_ends_session_iff_stop_or_fifth_witness :
  ∃ st,
    session (P := platform) (world ["IncomeStmt"] (scripted two_rounds)) 0%nat
      "q" [] ["IncomeStmt"] = Ok (st, None)
    ∧ history st !! 1%nat = Some second_reply
    ∧ arg_stop <$> tool_calls second_reply = [Some false; Some true; Some false]
    ∧ 2%nat = length (history st)
    ∧ ∃ entries, all_results st !! 1%nat = Some entries
                 ∧ sql_query <$> entries = [income_query; income_query; "SELECT 1"]
                 ∧ entries
                   = zip_with display_entry (tool_calls second_reply)
                       (executed (tool_calls second_reply) 1%nat).1
                 ∧ (executed (P := platform) (tool_calls second_reply) 1%nat).2
                   = 4%nat.
Proof.
  destruct (session (P := platform) (world ["IncomeStmt"] (scripted two_rounds))
              0%nat "q" [] ["IncomeStmt"]) as [[st raised]|e] eqn:Hs;
    pose proof Hs as Hrun; vm_compute in Hrun; [|discriminate].
  injection Hrun as Hst Hraised. subst raised.
  assert (history st !! 1%nat = Some second_reply) as Hround
    by (subst st; reflexivity).
  destruct (round_ends_session_iff_stop_or_fifth (P := platform)
              (world ["IncomeStmt"] (scripted two_rounds)) 0%nat "q" []
              ["IncomeStmt"] st None 1%nat second_reply Hs Hround)
    as ((entries & entries_db & Hentries & _ & Hqueries & _ & _ & Hexecuted & _)
        & Hiff & _).
  exists st. split; [reflexivity|]. split; [exact Hround|].
  split; [reflexivity|]. split.
  - destruct (proj2 Hiff (or_introl eq_refl)) as [Hlast _]. exact Hlast.
  - exists entries. split; [exact Hentries|]. split; [exact Hqueries|].
    split; [|reflexivity]. rewrite Hexecuted. subst st. reflexivity.
Defined.

(** The transcripts of the session of two rounds. *)
Lemma transcripts_are_aligned_witness :
  ∃ transcript_db transcript c,
    generate_sql_query_multi_tables (P := platform)
      (world ["IncomeStmt"] (scripted two_rounds)) 0%nat "q" [] "finance"
      ["IncomeStmt"] = Ok (transcript_db, transcript, c)
    ∧ length <$> transcript = [1%nat; 3%nat]
    ∧ aligned transcript_db transcript.
Proof.
  eexists _, _, _. split; [vm_compute; reflexivity|]. split; [reflexivity|].
  eapply (proj2 (transcripts_are_aligned (P := platform)
                   (world ["IncomeStmt"] (scripted two_rounds)) 0%nat "q" []
                   "finance" ["IncomeStmt"])).
  vm_compute. reflexivity.
Defined.


End Runs.

(** * Further properties *)

(** ** The metadata database *)

Lemma collect_table_info_values (market_type : string) (rows : list MarketTable) :
  ∀ (table_info : gmap string (string * string)) (t schema comment : string),
    collect_table_info market_type rows table_info !! t = Some (schema, comment) →
    table_info !! t = Some (schema, comment)
    ∨ ∃ row, row ∈ rows ∧ market row = market_type ∧ table_name row = t
             ∧ table_schema row = schema
             ∧ comment ≠ EmptyString
             ∧ (table_description row = Some comment
                ∨ comment = "No comment available."
                  ∧ (table_description row = None
                     ∨ table_description row = Some EmptyString)).
Proof.
  induction rows as [|row rest IH]; intros table_info t schema comment; simpl.
  - by left.
  - destruct (decide (market row = market_type)) as [Hm|Hm].
    + intros [Hacc|(row' & Hin & Hrow')]%IH.
      * destruct (decide (table_name row = t)) as [Ht|Ht].
        -- rewrite Ht, lookup_insert_eq in Hacc. injection Hacc as <- <-.
           right. exists row. split; [apply list_elem_of_here|].
           do 3 (split; [done|]).
           destruct (table_description row) as [[|c d]|]; naive_solver.
        -- rewrite lookup_insert_ne in Hacc by done. by left.
      * right. exists row'. split; [by apply list_elem_of_further|done].
    + intros [Hacc|(row' & Hin & Hrow')]%IH; [by left|].
      right. exists row'. split; [by apply list_elem_of_further|done].
Qed.

(** Every entry of [get_table_info] comes from a row of the market: the
    schema is that of the row, and the description is the row's, or the
    text ["No comment available."] when the row has none or an empty one;
    it is never empty. *)
Theorem get_table_info_descriptions (W : World) (market_type t schema comment : string) :
  get_table_info W market_type !! t = Some (schema, comment) →
  comment ≠ EmptyString
  ∧ ∃ rows row,
      metadata W = Some rows ∧ row ∈ rows
      ∧ market row = market_type ∧ table_name row = t
      ∧ table_schema row = schema
      ∧ (table_description row = Some comment
         ∨ comment = "No comment available."
           ∧ (table_description row = None
              ∨ table_description row = Some EmptyString)).
Proof.
  unfold get_table_info. destruct (metadata W) as [rows|]; [|done].
  intros [Hempty|(row & Hin & Hm & Ht & Hs & Hne & Hc)]%collect_table_info_values.
  - by rewrite lookup_empty in Hempty.
  - split; [done|]. by exists rows, row.
Qed.


(** [get_table_comments_of_rel_tables] has an entry for a table exactly
    when the table is among those asked for, the metadata database can be
    opened and the table has a row there. *)
Theorem get_table_comments_of_rel_tables_dom (W : World)
    (rel_tables : list string) (t : string) :
  t ∈ dom (get_table_comments_of_rel_tables W rel_tables)
  ↔ t ∈ rel_tables
    ∧ ∃ rows row, metadata W = Some rows ∧ row ∈ rows ∧ table_name row = t.
Proof.
  unfold get_table_comments_of_rel_tables.
  destruct rel_tables as [|r rs].
  - rewrite dom_empty_L. split; [set_solver|]. intros [Hin _]. by apply elem_of_nil in Hin.
  - destruct (metadata W) as [rows|].
    + rewrite comments_dom. split.
      * intros (Hin & row & ? & ?). split; [done|]. by exists rows, row.
      * intros (Hin & rows' & row & [= <-] & ? & ?). split; [done|]. by exists row.
    + rewrite dom_empty_L. split; [set_solver|]. by intros (_ & ? & ? & ? & _).
Qed.

(** ** The example filter, again *)

Lemma filter_sublist_mono {A : Type} (Q1 Q2 : A → Prop)
    `{!∀ x, Decision (Q1 x)} `{!∀ x, Decision (Q2 x)} (l : list A) :
  (∀ x, Q1 x → Q2 x) → filter Q1 l `sublist_of` filter Q2 l.
Proof.
  intros Himp. induction l as [|x l IH]; [done|]. rewrite !filter_cons.
  destruct (decide (Q1 x)) as [H1|H1].
  - rewrite decide_True by auto. by apply sublist_skip.
  - destruct (decide (Q2 x)); [by apply sublist_cons|done].
Qed.

Lemma fmap_sublist {A B : Type} (f : A → B) (l k : list A) :
  l `sublist_of` k → f <$> l `sublist_of` f <$> k.
Proof.
  induction 1; simpl; [constructor|by apply sublist_skip|by apply sublist_cons].
Qed.

(** Asking for more tables never loses an example: when every target
    table of a first call is a target table of a second one, what the
    first call returns is a sublist, in the same order, of what the second
    returns. *)
Theorem get_relevant_examples_monotone (loaded : res (list Example))
    (targets1 targets2 : list string) (kept1 : list Example) :
  (∀ t, t ∈ targets1 → t ∈ targets2) →
  get_relevant_examples loaded targets1 = Ok kept1 →
  ∃ kept2, get_relevant_examples loaded targets2 = Ok kept2
           ∧ kept1 `sublist_of` kept2.
Proof.
  intros Hsub. unfold get_relevant_examples.
  destruct loaded as [examples|[]]; try done.
  - rewrite !filter_examples_acc. simpl. intros [= <-]. eexists. split; [done|].
    apply fmap_sublist, filter_sublist_mono. intros example Hex t Ht.
    apply Hex in Ht. apply elem_of_list_to_set in Ht.
    apply elem_of_list_to_set. by apply Hsub.
  - intros [= <-]. by exists [].
  - intros [= <-]. by exists [].
Qed.

Lemma without_relevant_tables_idemp (example : Example) :
  without_relevant_tables (without_relevant_tables example)
  = without_relevant_tables example.
Proof.
  apply map_eq. intros k. rewrite !without_relevant_tables_lookup.
  by destruct (decide (k = "relevant_tables")).
Qed.

Lemma example_tables_without (example : Example) :
  example_tables (without_relevant_tables example) = ∅.
Proof.
  unfold example_tables. rewrite without_relevant_tables_lookup. done.
Qed.

(** What [get_relevant_examples] returns passes the filter again
    unchanged, whatever the target tables: the examples returned carry no
    table any more. *)
Theorem get_relevant_examples_refilter (loaded : res (list Example))
    (targets targets' : list string) (kept : list Example) :
  get_relevant_examples loaded targets = Ok kept →
  get_relevant_examples (Ok kept) targets' = Ok kept.
Proof.
  intros Hkept.
  assert (∃ examples : list Example, kept = without_relevant_tables <$> examples)
    as (examples & ->).
  { unfold get_relevant_examples in Hkept.
    destruct loaded as [examples|[]]; try done.
    - rewrite filter_examples_acc in Hkept. injection Hkept as <-. eauto.
    - injection Hkept as <-. by exists [].
    - injection Hkept as <-. by exists []. }
  unfold get_relevant_examples. rewrite filter_examples_acc. simpl. f_equal.
  clear Hkept. induction examples as [|example rest IH]; [done|].
  rewrite fmap_cons, filter_cons, decide_True.
  - rewrite fmap_cons, without_relevant_tables_idemp. by f_equal.
  - rewrite example_tables_without. apply empty_subseteq.
Qed.

(** ** Rendering a transcript as text *)

Lemma format_entries_acc (entries : list (gmap string string)) (acc : list string) :
  format_entries entries acc
  = acc ++ (entries ≫= λ entry,
              ["SQL Query:" +:+ newline
                 +:+ default "No SQL query available." (entry !! "sql_query")
                 +:+ newline;
               "Result:" +:+ newline
                 +:+ default "No result available." (entry !! "result")
                 +:+ newline]).
Proof.
  revert acc. induction entries as [|entry rest IH]; intros acc; simpl.
  - by rewrite app_nil_r.
  - rewrite IH. by rewrite <- app_assoc.
Qed.

Lemma format_rounds_acc (all_results : list (list (gmap string string)))
    (acc : list string) :
  format_rounds all_results acc = acc ++ format_entries (concat all_results) [].
Proof.
  revert acc. induction all_results as [|round rest IH]; intros acc; simpl.
  - by rewrite app_nil_r.
  - rewrite IH, !format_entries_acc, bind_app. simpl. by rewrite app_assoc.
Qed.

Lemma entry_dict_lookup (entry : Entry) :
  entry_dict entry !! "sql_query" = Some (sql_query entry)
  ∧ entry_dict entry !! "result" = Some (result entry).
Proof.
  unfold entry_dict. split.
  - apply lookup_insert_eq.
  - rewrite lookup_insert_ne by done. apply lookup_singleton_eq.
Qed.

Lemma format_entries_of_entries (entries : list Entry) :
  format_entries (entry_dict <$> entries) []
  = entries ≫= λ entry : Entry,
      ["SQL Query:" +:+ newline +:+ sql_query entry +:+ newline;
       "Result:" +:+ newline +:+ result entry +:+ newline].
Proof.
  rewrite format_entries_acc. simpl.
  induction entries as [|entry rest IH]; [done|].
  rewrite fmap_cons, !bind_cons, IH.
  destruct (entry_dict_lookup entry) as [-> ->]. done.
Qed.

Lemma concat_fmap_fmap {A B : Type} (f : A → B) (ls : list (list A)) :
  concat ((λ l : list A, f <$> l) <$> ls) = f <$> concat ls.
Proof.
  induction ls as [|l ls IH]; [done|].
  rewrite fmap_cons. cbn [concat]. by rewrite IH, fmap_app.
Qed.

(** The text of a transcript does not show where a round ends: it is the
    text of the single round made of all its entries.  It is made of two
    parts per entry; for entries as the loop builds them these are the
    query and the result of the entry, never a placeholder. *)
Theorem format_sql_queries_and_results_flat
    (all_results : list (list (gmap string string)))
    (transcript : list (list Entry)) :
  format_sql_queries_and_results all_results
  = format_sql_queries_and_results [concat all_results]
  ∧ length (format_rounds all_results []) = (2 * length (concat all_results))%nat
  ∧ format_sql_queries_and_results
      ((λ round : list Entry, entry_dict <$> round) <$> transcript)
    = join newline
        (concat transcript ≫= λ entry : Entry,
           ["SQL Query:" +:+ newline +:+ sql_query entry +:+ newline;
            "Result:" +:+ newline +:+ result entry +:+ newline]).
Proof.
  split; [|split].
  - unfold format_sql_queries_and_results. rewrite !format_rounds_acc. simpl.
    by rewrite app_nil_r.
  - rewrite format_rounds_acc, format_entries_acc. simpl.
    induction (concat all_results) as [|entry rest IH]; [done|].
    rewrite bind_cons, length_app, IH. simpl. lia.
  - unfold format_sql_queries_and_results.
    rewrite format_rounds_acc. simpl.
    by rewrite concat_fmap_fmap, format_entries_of_entries.
Qed.

(** ** Listing the tables of a database *)

Lemma dedup_loop_spec (tables : list string) :
  ∀ (seen : gset string) (ordered : list string),
    seen = list_to_set ordered → NoDup ordered →
    ∃ fresh,
      dedup_loop tables seen ordered = ordered ++ fresh
      ∧ NoDup (ordered ++ fresh)
      ∧ (∀ t, t ∈ ordered ++ fresh ↔ t ∈ ordered ∨ t ∈ tables)
      ∧ fresh `sublist_of` tables
      ∧ (NoDup tables → (∀ t, t ∈ ordered → t ∉ tables) → fresh = tables).
Proof.
  induction tables as [|t rest IH]; intros seen ordered Hseen Hnodup; simpl.
  - exists []. rewrite app_nil_r. split; [done|]. split; [done|].
    split; [|split; [constructor|done]].
    intros t. split; [by left|]. intros [?|Hin]; [done|]. by apply elem_of_nil in Hin.
  - destruct (decide (t ∈ seen)) as [Hin|Hnin].
    + destruct (IH seen ordered Hseen Hnodup) as (fresh & -> & Hnd & Hel & Hsub & Hid).
      exists fresh. split; [done|]. split; [done|]. split; [|split].
      * intros t'. rewrite Hel, elem_of_cons. split.
        { intros [?|?]; [by left|right; by right]. }
        intros [?|[->|?]]; [by left| |by right].
        left. rewrite Hseen in Hin. by apply elem_of_list_to_set in Hin.
      * by apply sublist_cons.
      * intros _ Hdisj. exfalso. apply (Hdisj t); [|apply list_elem_of_here].
        rewrite Hseen in Hin. by apply elem_of_list_to_set in Hin.
    + assert (t ∉ ordered) as Hfresh.
      { intros Hin. apply Hnin. rewrite Hseen. by apply elem_of_list_to_set. }
      destruct (IH ({[t]} ∪ seen) (ordered ++ [t])) as (fresh & -> & Hnd & Hel & Hsub & Hid).
      { rewrite Hseen, list_to_set_app_L. simpl.
        rewrite union_empty_r_L. apply (comm_L (∪)). }
      { apply NoDup_app. split; [done|]. split; [|apply NoDup_singleton].
        intros x Hx ->%list_elem_of_singleton. done. }
      exists (t :: fresh). rewrite <- !app_assoc in *. simpl in *.
      split; [done|]. split; [done|]. split; [|split].
      * intros t'. rewrite Hel, elem_of_app, list_elem_of_singleton, elem_of_cons.
        tauto.
      * by apply sublist_skip.
      * intros [Hnew Hrest]%NoDup_cons Hdisj. f_equal. apply Hid; [done|].
        intros x [Hx| ->%list_elem_of_singleton]%elem_of_app; [|done].
        intros Hxr. apply (Hdisj x Hx). by apply list_elem_of_further.
Qed.

(** [list_tables] succeeds exactly when the table names can be read.  Its
    list has no repetition, has the elements of the table names followed,
    if views are asked for and can be read, by the view names, and keeps
    their order; an input without repetition comes back unchanged. *)
Theorem list_tables_no_repetition (table_names view_names : res (list string))
    (include_views : bool) (ordered : list string) :
  list_tables table_names view_names include_views = Ok ordered →
  ∃ names,
    table_names = Ok names
    ∧ let tables :=
        names ++ (if include_views
                  then match view_names with Ok views => views | Raise _ => [] end
                  else []) in
      NoDup ordered
      ∧ (∀ t, t ∈ ordered ↔ t ∈ tables)
      ∧ ordered `sublist_of` tables
      ∧ (NoDup tables → ordered = tables).
Proof.
  unfold list_tables. destruct table_names as [names|e]; step_bind; [|done].
  intros [= <-]. exists names. split; [done|].
  assert ((if include_views
           then match view_names with Ok views => names ++ views | Raise _ => names end
           else names)
          = names ++ (if include_views
                      then match view_names with Ok views => views | Raise _ => [] end
                      else [])) as ->.
  { destruct include_views; [destruct view_names|]; by rewrite ?app_nil_r. }
  set (tables := names ++ _).
  destruct (dedup_loop_spec tables ∅ []) as (fresh & -> & Hnd & Hel & Hsub & Hid);
    [done|constructor|].
  simpl in *. split; [done|]. split; [|split; [done|]].
  - intros t. rewrite Hel. split; [|by right].
    intros [Hin|?]; [|done]. by apply elem_of_nil in Hin.
  - intros Hno. apply Hid; [done|]. intros t Hin. by apply elem_of_nil in Hin.
Qed.

Section Further.
Context `{P : Platform}.

(** ** Frames and their text *)

Lemma append_empty (s1 s2 : string) :
  s1 +:+ s2 = EmptyString → s1 = EmptyString ∧ s2 = EmptyString.
Proof. by destruct s1. Qed.

Lemma append_empty_r (s : string) : s +:+ EmptyString = s.
Proof.
  induction s as [|c s IH]; [done|].
  change (String c (s +:+ EmptyString) = String c s). by rewrite IH.
Qed.

Lemma join_cons_cons (sep a b : string) (l : list string) :
  join sep (a :: b :: l) = a +:+ sep +:+ join sep (b :: l).
Proof. reflexivity. Qed.

(** With headers, a frame that has a column and a row is never formatted
    as the empty string when the row separator is not empty.  So, for every
    frame, the text the loop stores for a tool call is empty exactly when
    the frame is empty. *)
Theorem format_dataframe_nonempty (data : DataFrame)
    (row_separator col_separator : string) (add_indices : bool) :
  (frame_empty data = false → row_separator ≠ EmptyString →
     format_dataframe data row_separator col_separator true add_indices
     ≠ EmptyString)
  ∧ ((if negb (frame_empty data)
      then format_dataframe data newline tab true false
      else EmptyString) = EmptyString
     ↔ frame_empty data = true).
Proof.
  assert (∀ rs cs i, frame_empty data = false → rs ≠ EmptyString →
            format_dataframe data rs cs true i ≠ EmptyString) as Hfmt.
  { intros rs cs i Hne Hrs. unfold format_dataframe, frame_empty in *.
    apply orb_false_iff in Hne as [Hcols Hrows]. rewrite Hcols.
    destruct (rows data) as [|row rest]; [done|]. simpl app.
    cbn [format_rows]. rewrite join_cons_cons.
    intros [_ [? _]%append_empty]%append_empty. done. }
  split; [apply Hfmt|].
  destruct (frame_empty data) eqn:Hempty; simpl; [done|].
  split; [|done]. intros Htext. by apply Hfmt in Htext.
Qed.

(** The header flag only adds a first line: with a column, the text with
    headers is the header line, followed, when there are rows, by the row
    separator and the text without headers. *)
Theorem format_dataframe_header_line (data : DataFrame)
    (row_separator col_separator : string) (add_indices : bool) :
  columns data ≠ [] →
  format_dataframe data row_separator col_separator true add_indices
  = ((if add_indices then col_separator else EmptyString)
       +:+ join col_separator (columns data))
    +:+ match rows data with
        | [] => EmptyString
        | _ :: _ =>
            row_separator
              +:+ format_dataframe data row_separator col_separator false add_indices
        end.
Proof.
  intros Hcols. unfold format_dataframe.
  destruct (columns data) as [|c cs]; [done|]. simpl length. simpl Nat.eqb.
  cbv iota. cbn [app].
  destruct (rows data) as [|row rest].
  - simpl. by rewrite append_empty_r.
  - cbn [format_rows]. by rewrite join_cons_cons.
Qed.

(** ** The conversation *)

Lemma loop_prompt (W : World) (base : list message) (n : nat) :
  ∀ (a : nat) (st st' : LoopState) (raised : option exn),
    formatted_SQL_prompt st
    = base ++ imap (λ i entries, Assistant (S i) entries) (all_results st) →
    a = S (length (all_results st)) →
    loop W (seq a n) st = (st', raised) →
    formatted_SQL_prompt st'
    = base ++ imap (λ i entries, Assistant (S i) entries) (all_results st').
Proof.
  induction n as [|n IH]; intros a st st' raised Hprompt Ha; simpl.
  - by intros [= <- <-].
  - destruct (stop st); [by intros [= <- <-]|].
    destruct (iteration W a st) as [st1|e] eqn:Hit; [|by intros [= <- <-]].
    apply iteration_ok in Hit
      as (response & entries & ? & _ & _ & _ & _ & Har & _ & Hp & _).
    apply IH.
    + rewrite Hp, Har, Hprompt, imap_app, <- app_assoc. simpl.
      by rewrite Nat.add_0_r, Ha.
    + rewrite Har, length_app. simpl. lia.
Qed.

(** At the end of a session the conversation is the system message and
    the question, as they were before the first round, followed by one
    assistant message per completed round, numbered from 1, holding the
    entries of that round in the display transcript. *)
Theorem session_conversation (W : World) (store : Store) (user_input : string)
    (keywords : list (gmap string string)) (rel_tables : list string)
    (st : LoopState) (raised : option exn) :
  session W store user_input keywords rel_tables = Ok (st, raised) →
  ∃ st0 examples table_details,
    initial_state W store user_input keywords rel_tables = Ok st0
    ∧ formatted_SQL_prompt st0
      = [System examples table_details; User user_input keywords]
    ∧ formatted_SQL_prompt st
      = System examples table_details :: User user_input keywords
          :: imap (λ i entries, Assistant (S i) entries) (all_results st).
Proof.
  unfold session.
  destruct (initial_state W store user_input keywords rel_tables) as [st0|e] eqn:Hinit;
    unfold mbind, res_bind; cbv beta iota; [|done].
  intros Hret.
  assert (loop W rounds st0 = (st, raised)) as Hloop by congruence.
  assert (∃ examples table_details,
            formatted_SQL_prompt st0
            = [System examples table_details; User user_input keywords]
            ∧ all_results st0 = []) as (examples & table_details & Hp0 & Har0).
  { unfold initial_state in Hinit.
    destruct (get_table_schemas W rel_tables) as [schemas|e]; step_bind_in Hinit; [|done].
    destruct (get_relevant_examples _ _) as [examples|e]; step_bind_in Hinit; [|done].
    injection Hinit as <-. simpl. eauto. }
  exists st0, examples, table_details. split; [done|]. split; [done|].
  apply (loop_prompt W [System examples table_details; User user_input keywords]
           5 1 st0 st raised); [by rewrite Hp0, Har0|by rewrite Har0|done].
Qed.

(** ** What a session returns *)

(** A session whose loop ends without an exception has completed at least
    one round, so a cost has been assigned: the function returns the two
    transcripts of the session, of one to five rounds each.  It raises
    only when the code before the loop or the loop itself raised. *)
Theorem generate_returns_between_one_and_five_rounds (W : World) (store : Store)
    (user_input : string) (keywords : list (gmap string string))
    (market_type : string) (rel_tables : list string) :
  match generate_sql_query_multi_tables W store user_input keywords market_type
          rel_tables with
  | Ok (transcript_db, transcript, c) =>
      (1 ≤ length transcript ≤ 5)%nat
      ∧ length transcript_db = length transcript
      ∧ ∃ st, session W store user_input keywords rel_tables = Ok (st, None)
              ∧ transcript_db = all_results_db st ∧ transcript = all_results st
  | Raise e =>
      initial_state W store user_input keywords rel_tables = Raise e
      ∨ ∃ st, session W store user_input keywords rel_tables = Ok (st, Some e)
  end.
Proof.
  unfold generate_sql_query_multi_tables.
  destruct (session W store user_input keywords rel_tables) as [[st raised]|e] eqn:Hs;
    unfold mbind, res_bind; cbv beta iota.
  2: { left. unfold session in Hs.
       destruct (initial_state W store user_input keywords rel_tables); [done|].
       unfold mbind, res_bind in Hs. congruence. }
  destruct raised as [e|]; [right; by exists st|].
  pose proof Hs as (Hc & Hle & Hfull & _)%session_consistent.
  pose proof (Forall2_length _ _ _ (recorded _ _ Hc)) as Har.
  pose proof (Forall2_length _ _ _ (recorded_db _ _ Hc)) as Hardb.
  assert (1 ≤ length (history st))%nat as Hone.
  { destruct (stop st) eqn:Hstop.
    - rewrite (stop_last _ _ Hc) in Hstop.
      destruct (history st) as [|r h]; [done|]. simpl. lia.
    - rewrite Hfull; [lia|done|done]. }
  rewrite (cost_last _ _ Hc).
  destruct (last (history st)) as [response|] eqn:Hlast.
  - simpl. simpl in Hle. split; [lia|]. split; [lia|]. by exists st.
  - apply last_None in Hlast. rewrite Hlast in Hone. simpl in Hone. lia.
Qed.

(** ** The context of the loop *)

(** The code before the loop fails with [OperationalError] when the
    metadata database cannot be opened.  When it can, and the examples
    file loads, is missing or is not valid YAML, it succeeds for any list
    of tables: the system message has one entry per table, in the order
    given, and a table without a row in the metadata gets the two
    placeholder texts. *)
Theorem initial_state_placeholders (W : World) (store : Store)
    (user_input : string) (keywords : list (gmap string string))
    (rel_tables : list string) :
  match metadata W with
  | None =>
      initial_state W store user_input keywords rel_tables = Raise OperationalError
  | Some rows =>
      (∀ e, sql_examples W = Raise e → e = FileNotFoundError ∨ e = YAMLError) →
      ∃ st examples table_details,
        initial_state W store user_input keywords rel_tables = Ok st
        ∧ formatted_SQL_prompt st
          = [System examples table_details; User user_input keywords]
        ∧ td_table_name <$> table_details = rel_tables
        ∧ ∀ detail, detail ∈ table_details →
            (∀ row, row ∈ rows → table_name row ≠ td_table_name detail) →
            td_table_description detail = "No description available."
            ∧ td_table_schema detail = "No schema available."
  end.
Proof.
  unfold initial_state, get_table_schemas.
  destruct (metadata W) as [rows|] eqn:Hmeta; [|done].
  intros Hexamples. step_bind.
  assert (∃ examples, get_relevant_examples (sql_examples W) rel_tables = Ok examples)
    as (examples & ->).
  { unfold get_relevant_examples.
    destruct (sql_examples W) as [lib|e] eqn:Hlib; [eauto|].
    destruct (Hexamples e eq_refl) as [-> | ->]; eauto. }
  step_bind. eexists _, examples, _. split; [done|]. simpl. split; [done|].
  split; [apply table_details_names|].
  intros detail Hin Hrows.
  apply list_elem_of_fmap in Hin as (t & -> & Ht). simpl in Hrows. simpl.
  rewrite collect_schemas_lookup, decide_True by done.
  assert (find (λ row, bool_decide (table_name row = t)) rows = None) as ->.
  { destruct (find _ rows) as [row|] eqn:Hfind; [|done].
    apply find_some in Hfind as [Hrow Hname].
    apply bool_decide_eq_true in Hname.
    exfalso. by apply (Hrows row); [apply list_elem_of_In|]. }
  rewrite lookup_empty. split; [|done].
  assert (get_table_comments_of_rel_tables W rel_tables !! t = None) as ->; [|done].
  apply not_elem_of_dom. unfold get_table_comments_of_rel_tables.
  destruct rel_tables as [|r rs]; [set_solver|]. rewrite Hmeta.
  rewrite comments_dom.
  intros (_ & row & Hrow & Hname).
  by apply (Hrows row).
Qed.

(** ** The wrapper and the selector *)

Lemma loop_same_generator (W W' : World) (counts : list nat) :
  sql_generator W = sql_generator W' →
  ∀ st, loop W counts st = loop W' counts st.
Proof.
  intros Hgen. induction counts as [|count rest IH]; intros st; simpl; [done|].
  destruct (stop st); [done|].
  assert (iteration W count st = iteration W' count st) as ->.
  { unfold iteration. by rewrite Hgen. }
  destruct (iteration W' count st); [apply IH|done].
Qed.

Lemma generate_same_world (W W' : World) (store : Store) (user_input : string)
    (keywords : list (gmap string string)) (market_type : string)
    (rel_tables : list string) :
  metadata W = metadata W' → sql_examples W = sql_examples W' →
  sql_generator W = sql_generator W' →
  generate_sql_query_multi_tables W store user_input keywords market_type rel_tables
  = generate_sql_query_multi_tables W' store user_input keywords market_type rel_tables.
Proof.
  intros Hmeta Hexamples Hgen.
  assert (initial_state W store user_input keywords rel_tables
          = initial_state W' store user_input keywords rel_tables) as Hinit.
  { unfold initial_state, get_table_schemas, get_table_comments_of_rel_tables.
    by rewrite Hmeta, Hexamples. }
  assert (session W store user_input keywords rel_tables
          = session W' store user_input keywords rel_tables) as Hsession.
  { unfold session. rewrite Hinit.
    destruct (initial_state W' store user_input keywords rel_tables) as [st0|e];
      unfold mbind, res_bind; cbv beta iota; [|done].
    by rewrite (loop_same_generator W W' rounds Hgen). }
  unfold generate_sql_query_multi_tables. by rewrite Hsession.
Qed.

(** When the caller passes a list of tables that is not empty, the
    selector is not consulted: two worlds that differ in the selector only
    give the same outcome and the same log, and the flag returned with the
    transcripts is false. *)
Theorem sql_pipeline_given_tables_bypass_selector (W W' : World) (store : Store)
    (log : list ErrorRecord) (user_input : string)
    (keywords : list (gmap string string)) (market_type : string)
    (t : string) (ts : list string) :
  metadata W = metadata W' → sql_examples W = sql_examples W' →
  sql_generator W = sql_generator W' →
  sql_pipeline W store log user_input keywords market_type (Some (t :: ts))
  = sql_pipeline W' store log user_input keywords market_type (Some (t :: ts))
  ∧ ∀ transcript_db transcript check log',
      sql_pipeline W store log user_input keywords market_type (Some (t :: ts))
      = (Ok (Results transcript_db transcript check), log') →
      check = false.
Proof.
  intros Hmeta Hexamples Hgen.
  pose proof (generate_same_world W W' store user_input keywords market_type
                (t :: ts) Hmeta Hexamples Hgen) as Hsame.
  unfold sql_pipeline, try_block, select_tables. step_bind.
  rewrite Hsame. split; [done|].
  intros transcript_db transcript check log'.
  destruct (sqlite_connect store); [|done].
  destruct (generate_sql_query_multi_tables W' _ _ _ _ _) as [[[? ?] ?]|e]; simpl.
  - by intros [= _ _ <- _].
  - done.
Qed.

(** When the selector answers with a list of names that is not empty,
    calling the wrapper without tables gives what calling it with that
    list gives, except for the flag returned with the transcripts, which
    is true. *)
Theorem sql_pipeline_selected_as_given (W : World) (store : Store)
    (log : list ErrorRecord) (user_input : string)
    (keywords : list (gmap string string)) (market_type : string)
    (response : SelectionResponse) (t : string) (ts : list string) :
  table_selector W user_input (get_table_info W market_type) = Ok response →
  content response !! "relevant_tables" = Some (t :: ts) →
  sql_pipeline W store log user_input keywords market_type None
  = match sql_pipeline W store log user_input keywords market_type (Some (t :: ts)) with
    | (Ok (Results transcript_db transcript _), log') =>
        (Ok (Results transcript_db transcript true), log')
    | other => other
    end.
Proof.
  intros Hanswer Hnames.
  unfold sql_pipeline, try_block, select_tables, get_relevant_tables.
  rewrite Hanswer. step_bind. rewrite Hnames. simpl.
  destruct (sqlite_connect store); [|done].
  by destruct (generate_sql_query_multi_tables W _ _ _ _ _) as [[[? ?] ?]|e].
Qed.

End Further.

(** * Further runs on the small installation *)

Module FurtherRuns.
Import Demo.

(** The table of market ["retail"] has no description. *)
Lemma get_table_info_descriptions_witness :
  get_table_info (world [] tireless) "retail" !! "Orders"
  = Some ("Id INTEGER, Total REAL", "No comment available.")
  ∧ "No comment available." ≠ EmptyString.
Proof.
  split; [reflexivity|].
  apply (get_table_info_descriptions (world [] tireless) "retail" "Orders"
           "Id INTEGER, Total REAL" "No comment available.").
  reflexivity.
Defined.

(** Asking for [Orders] as well keeps the example about [IncomeStmt]. *)
Lemma get_relevant_examples_monotone_witness :
  get_relevant_examples (Ok library) ["IncomeStmt"]
  = Ok [without_relevant_tables income_example;
        without_relevant_tables general_example]
  ∧ ∃ kept2,
      get_relevant_examples (Ok library) ["Orders"; "IncomeStmt"] = Ok kept2
      ∧ [without_relevant_tables income_example;
         without_relevant_tables general_example] `sublist_of` kept2.
Proof.
  assert (get_relevant_examples (Ok library) ["IncomeStmt"]
          = Ok [without_relevant_tables income_example;
                without_relevant_tables general_example]) as Hfirst
    by (vm_compute; reflexivity).
  split; [exact Hfirst|].
  apply (get_relevant_examples_monotone (Ok library) ["IncomeStmt"]
           ["Orders"; "IncomeStmt"]); [|exact Hfirst].
  intros t Ht. by apply list_elem_of_further.
Defined.

(** The examples kept for [IncomeStmt] are kept for no table at all. *)
Lemma get_relevant_examples_refilter_witness :
  get_relevant_examples
    (Ok [without_relevant_tables income_example;
         without_relevant_tables general_example]) []
  = Ok [without_relevant_tables income_example;
        without_relevant_tables general_example].
Proof.
  apply (get_relevant_examples_refilter (Ok library) ["IncomeStmt"] []).
  vm_compute. reflexivity.
Defined.

(** A table named twice, and views that cannot be read. *)
Lemma list_tables_no_repetition_witness :
  list_tables (Ok ["Orders"; "IncomeStmt"; "Orders"]) (Raise ValueError) true
  = Ok ["Orders"; "IncomeStmt"]
  ∧ NoDup ["Orders"; "IncomeStmt"].
Proof.
  assert (list_tables (Ok ["Orders"; "IncomeStmt"; "Orders"]) (Raise ValueError) true
          = Ok ["Orders"; "IncomeStmt"]) as Hrun by (vm_compute; reflexivity).
  split; [exact Hrun|].
  destruct (list_tables_no_repetition _ _ _ _ Hrun) as (names & _ & Hnodup & _).
  exact Hnodup.
Defined.

(** A frame of one column and one row. *)
Lemma format_dataframe_nonempty_witness :
  frame_empty year_frame = false
  ∧ ";" ≠ EmptyString
  ∧ format_dataframe year_frame ";" "," true true ≠ EmptyString
  ∧ (if negb (frame_empty (P := platform) empty_frame)
     then format_dataframe (P := platform) empty_frame newline tab true false
     else EmptyString) = EmptyString.
Proof.
  split; [reflexivity|]. split; [discriminate|]. split.
  - apply (format_dataframe_nonempty (P := platform) year_frame ";" "," true);
      [reflexivity|discriminate].
  - apply (format_dataframe_nonempty (P := platform) empty_frame ";" "," true).
    reflexivity.
Defined.

Lemma format_dataframe_header_line_witness :
  format_dataframe year_frame ";" "," true true = ",Year;0,2021"
  ∧ format_dataframe year_frame ";" "," false true = "0,2021".
Proof.
  split; [|vm_compute; reflexivity].
  rewrite (format_dataframe_header_line (P := platform) year_frame ";" "," true);
    [|discriminate].
  vm_compute. reflexivity.
Defined.

(** The conversation at the end of the session of two rounds. *)
Lemma session_conversation_witness :
  ∃ st,
    session (P := platform) (world ["IncomeStmt"] (scripted two_rounds)) 0%nat
      "q" [] ["IncomeStmt"] = Ok (st, None)
    ∧ length (formatted_SQL_prompt st) = 4%nat
    ∧ ∃ entries1 entries2,
        all_results st = [entries1; entries2]
        ∧ drop 2 (formatted_SQL_prompt st)
          = [Assistant 1 entries1; Assistant 2 entries2].
Proof.
  destruct (session (P := platform) (world ["IncomeStmt"] (scripted two_rounds))
              0%nat "q" [] ["IncomeStmt"]) as [[st raised]|e] eqn:Hs;
    pose proof Hs as Hrun; vm_compute in Hrun; [|discriminate].
  injection Hrun as Hst Hraised. subst raised.
  destruct (session_conversation (P := platform) _ _ _ _ _ _ _ Hs)
    as (st0 & examples & table_details & _ & _ & Hprompt).
  exists st. split; [reflexivity|]. rewrite Hprompt.
  assert (∃ entries1 entries2, all_results st = [entries1; entries2])
    as (entries1 & entries2 & Har) by (subst st; simpl; eauto).
  rewrite Har. split; [reflexivity|]. by exists entries1, entries2.
Defined.

(** Two worlds whose selectors disagree, called with a given table. *)
Lemma sql_pipeline_given_tables_bypass_selector_witness :
  sql_pipeline (P := platform) (world ["Ghost"] (scripted one_round)) 0%nat []
    "q" [] "finance" (Some ["IncomeStmt"])
  = sql_pipeline (P := platform) (world ["Orders"] (scripted one_round)) 0%nat []
      "q" [] "finance" (Some ["IncomeStmt"]).
Proof.
  apply (sql_pipeline_given_tables_bypass_selector (P := platform)
           (world ["Ghost"] (scripted one_round))
           (world ["Orders"] (scripted one_round))); reflexivity.
Defined.

(** The selector names [IncomeStmt]; the caller names it as well. *)
Lemma sql_pipeline_selected_as_given_witness :
  ∃ transcript_db transcript,
    sql_pipeline (P := platform) (world ["IncomeStmt"] (scripted one_round)) 0%nat
      [] "q" [] "finance" (Some ["IncomeStmt"])
    = (Ok (Results transcript_db transcript false), [])
    ∧ sql_pipeline (P := platform) (world ["IncomeStmt"] (scripted one_round))
        0%nat [] "q" [] "finance" None
      = (Ok (Results transcript_db transcript true), []).
Proof.
  eexists _, _.
  assert (sql_pipeline (P := platform) (world ["IncomeStmt"] (scripted one_round))
            0%nat [] "q" [] "finance" (Some ["IncomeStmt"])
          = (Ok (Results _ _ false), [])) as Hgiven by (vm_compute; reflexivity).
  split; [exact Hgiven|].
  rewrite (sql_pipeline_selected_as_given (P := platform)
             (world ["IncomeStmt"] (scripted one_round)) 0%nat [] "q" [] "finance"
             {| content := {[ "relevant_tables" := ["IncomeStmt"] ]};
                selection_usage :=
                  {| prompt_tokens := 200; completion_tokens := 10 |} |}
             "IncomeStmt" []); [|reflexivity|reflexivity].
  by rewrite Hgiven.
Defined.

(** The cost returned for the session of two rounds is that of the second
    reply. *)
Lemma returned_cost_is_last_round_witness :
  ∃ transcript_db transcript c st response,
    generate_sql_query_multi_tables (P := platform)
      (world ["IncomeStmt"] (scripted two_rounds)) 0%nat "q" [] "finance"
      ["IncomeStmt"] = Ok (transcript_db, transcript, c)
    ∧ session (P := platform) (world ["IncomeStmt"] (scripted two_rounds)) 0%nat
        "q" [] ["IncomeStmt"] = Ok (st, None)
    ∧ last (history st) = Some response
    ∧ c = generation_cost (usage response).
Proof.
  destruct (generate_sql_query_multi_tables (P := platform)
              (world ["IncomeStmt"] (scripted two_rounds)) 0%nat "q" [] "finance"
              ["IncomeStmt"]) as [[[transcript_db transcript] c]|e] eqn:Hg.
  - destruct (returned_cost_is_last_round (P := platform) _ _ _ _ _ _ _ _ _ Hg)
      as (st & response & Hs & Hlast & Hc).
    by exists transcript_db, transcript, c, st, response.
  - vm_compute in Hg. discriminate.
Defined.

(** A table that the metadata does not know, beside one it knows. *)
Lemma initial_state_placeholders_witness :
  ∃ st examples table_details,
    initial_state (P := platform) (world [] tireless) 0%nat "q" []
      ["Ghost"; "IncomeStmt"] = Ok st
    ∧ formatted_SQL_prompt st = [System examples table_details; User "q" []]
    ∧ td_table_name <$> table_details = ["Ghost"; "IncomeStmt"].
Proof.
  pose proof (initial_state_placeholders (P := platform) (world [] tireless)
                0%nat "q" [] ["Ghost"; "IncomeStmt"]) as Hcontext.
  simpl in Hcontext.
  destruct Hcontext as (st & examples & table_details & Hst & Hprompt & Hnames & _);
    [intros e He; discriminate He|].
  by exists st, examples, table_details.
Defined.

End FurtherRuns.
